(** * httpkit: configuration composition and the start of [Serve]

    A shallow embedding of package [httpkit] of the toolbox repository.

    The repository holds the configuration file twice:
    - [src/httpkit/config.go]: host, port and the four timeouts;
    - [src/unnamed/part_000]: the same file extended with the transport
      security fields [TLS] and [tlsErr], the option [WithTLS] and one more
      check at the end of [Validate].

    Both are embedded: the extended file at top level, the plain one in
    [Module Plain].  [Serve] is [src/httpkit/httpkit.go].

    Conventions of the embedding:
    - Go's [int] and [time.Duration] (an [int64] of nanoseconds) are [Z];
      the package only assigns and compares them, it never computes with
      them, so no wrap-around occurs anywhere;
    - a method with a pointer receiver ([func (c *Config) ...]) takes the
      record and returns the updated record;
    - a Go [error] is [option error], with [None] for [nil];
    - a pointer [*tls.Config] is [option tlsConfig], with [None] for [nil];
    - the interface [ConfigOption] has an unexported method, so the struct
      types of this package are its only implementations: it is an
      inductive type with one constructor per struct.  A nil interface
      value is not an option and is not represented.

    The second half of the file embeds package [pgxkit]
    ([src/pgxkit/pgxkit.go], [src/pgxkit/client.go]) in [Module pgxkit]:
    the error mapping, the migration actions and their flag, and the
    client with its options, [Open] and [Migrate].  Code that calls the
    outside (the run-time system, the pool, the file system, the
    migrator, the logger) is an interaction tree over these calls; [run]
    follows such a tree against the answers of the outside and gives the
    calls made, in order, and the result. *)

From Stdlib Require Import ZArith String Ascii List Bool Lia DecimalString.
From ITree Require Import ITree.
Import ListNotations.

Local Open Scope string_scope.
Local Open Scope Z_scope.

(** ** Errors *)

(** [errors.New] builds an error from its message; [fmt.Errorf] with the
    verb [%w] builds an error that carries a message and the wrapped
    error.  Errors coming from the standard library (file system, PEM
    parsing) are values of the same type. *)
Inductive error : Type :=
| errorString (s : string)
| wrapError (msg : string) (err : error).

Definition errors_New (s : string) : error := errorString s.

Definition Error (e : error) : string :=
  match e with
  | errorString s => s
  | wrapError msg _ => msg
  end.

Definition Unwrap (e : error) : option error :=
  match e with
  | errorString _ => None
  | wrapError _ err => Some err
  end.

(** [fmt.Errorf(prefix + "%w", err)]. *)
Definition fmt_Errorf_w (prefix : string) (err : error) : error :=
  wrapError (prefix ++ Error err) err.

(** ** Durations *)

Definition Nanosecond : Z := 1.
Definition Microsecond : Z := 1000 * Nanosecond.
Definition Millisecond : Z := 1000 * Microsecond.
Definition Second : Z := 1000 * Millisecond.
Definition Minute : Z := 60 * Second.

(** ** The values of crypto/tls that the package stores *)

Inductive ClientAuthType : Type :=
| NoClientCert
| RequestClientCert
| RequireAnyClientCert
| VerifyClientCertIfGiven
| RequireAndVerifyClientCert.

(** A certificate is kept as the two PEM texts it was parsed from, a pool
    as the PEM bundles added to it: the package never looks inside. *)
Inductive Certificate : Type :=
| X509KeyPair (certPEM keyPEM : string).

Inductive CertPool : Type :=
| certPool (bundles : list string).

Definition VersionTLS12 : Z := 771.

Record tlsConfig : Type := mkTLSConfig {
  ClientAuth : ClientAuthType;
  Certificates : list Certificate;
  ClientCAs : CertPool;
  MinVersion : Z;
  NextProtos : list string
}.

(** ** Configuration (src/unnamed/part_000) *)

Definition _defaultPort : Z := 8080.
Definition _defaultIdleTimeout : Z := 1 * Minute.
Definition _defaultReadTimeout : Z := 5 * Second.
Definition _defaultWriteTimeout : Z := 10 * Second.
Definition _defaultShutdownTimeout : Z := 10 * Second.

Record Config : Type := mkConfig {
  Host : string;
  Port : Z;
  IdleTimeout : Z;
  ReadTimeout : Z;
  WriteTimeout : Z;
  ShutdownTimeout : Z;
  TLS : option tlsConfig;
  tlsErr : option error
}.

(** [var cfg Config]: every field at its zero value. *)
Definition zeroConfig : Config :=
  mkConfig "" 0 0 0 0 0 None None.

Definition DefaultConfig : Config :=
  mkConfig "" _defaultPort _defaultIdleTimeout _defaultReadTimeout
           _defaultWriteTimeout _defaultShutdownTimeout None None.

(** Field assignments [c.F = v]. *)
Definition set_Host (c : Config) (v : string) : Config :=
  mkConfig v (Port c) (IdleTimeout c) (ReadTimeout c) (WriteTimeout c)
           (ShutdownTimeout c) (TLS c) (tlsErr c).

Definition set_Port (c : Config) (v : Z) : Config :=
  mkConfig (Host c) v (IdleTimeout c) (ReadTimeout c) (WriteTimeout c)
           (ShutdownTimeout c) (TLS c) (tlsErr c).

Definition set_IdleTimeout (c : Config) (v : Z) : Config :=
  mkConfig (Host c) (Port c) v (ReadTimeout c) (WriteTimeout c)
           (ShutdownTimeout c) (TLS c) (tlsErr c).

Definition set_ReadTimeout (c : Config) (v : Z) : Config :=
  mkConfig (Host c) (Port c) (IdleTimeout c) v (WriteTimeout c)
           (ShutdownTimeout c) (TLS c) (tlsErr c).

Definition set_WriteTimeout (c : Config) (v : Z) : Config :=
  mkConfig (Host c) (Port c) (IdleTimeout c) (ReadTimeout c) v
           (ShutdownTimeout c) (TLS c) (tlsErr c).

Definition set_ShutdownTimeout (c : Config) (v : Z) : Config :=
  mkConfig (Host c) (Port c) (IdleTimeout c) (ReadTimeout c) (WriteTimeout c)
           v (TLS c) (tlsErr c).

(** The parallel assignment [c.TLS, c.tlsErr = v, e]. *)
Definition set_TLS (c : Config) (v : option tlsConfig) (e : option error) : Config :=
  mkConfig (Host c) (Port c) (IdleTimeout c) (ReadTimeout c) (WriteTimeout c)
           (ShutdownTimeout c) v e.

(** [strconv.Itoa]. *)
Definition Itoa (n : Z) : string := NilZero.string_of_int (Z.to_int n).

(** [strings.IndexByte(s, c) >= 0]. *)
Fixpoint containsByte (s : string) (c : ascii) : bool :=
  match s with
  | EmptyString => false
  | String a rest => if Ascii.eqb a c then true else containsByte rest c
  end.

(** [net.JoinHostPort]: a host with a colon is a literal IPv6 address and
    is put in brackets. *)
Definition JoinHostPort (host port : string) : string :=
  if containsByte host ":"%char
  then "[" ++ host ++ "]:" ++ port
  else host ++ ":" ++ port.

Definition Addr (c : Config) : string := JoinHostPort (Host c) (Itoa (Port c)).

Definition Override (c other : Config) : Config :=
  let c := if negb (String.eqb (Host other) "") then set_Host c (Host other) else c in
  let c := if negb (Port other =? 0) then set_Port c (Port other) else c in
  let c := if negb (IdleTimeout other =? 0)
           then set_IdleTimeout c (IdleTimeout other) else c in
  let c := if negb (ReadTimeout other =? 0)
           then set_ReadTimeout c (ReadTimeout other) else c in
  let c := if negb (WriteTimeout other =? 0)
           then set_WriteTimeout c (WriteTimeout other) else c in
  let c := if negb (ShutdownTimeout other =? 0)
           then set_ShutdownTimeout c (ShutdownTimeout other) else c in
  c.

Definition setDefaultZeroValues (c : Config) : Config :=
  let c := if Port c <=? 0 then set_Port c _defaultPort else c in
  let c := if IdleTimeout c <=? 0 then set_IdleTimeout c _defaultIdleTimeout else c in
  let c := if ReadTimeout c <=? 0 then set_ReadTimeout c _defaultReadTimeout else c in
  let c := if WriteTimeout c <=? 0 then set_WriteTimeout c _defaultWriteTimeout else c in
  let c := if ShutdownTimeout c <=? 0
           then set_ShutdownTimeout c _defaultShutdownTimeout else c in
  c.

(** The five messages of [Validate] and the prefix of the sixth. *)
Definition errPort : error := errors_New "port must be greater than 0".
Definition errIdleTimeout : error := errors_New "idle timeout must be greater than 0".
Definition errReadTimeout : error := errors_New "read timeout must be greater than 0".
Definition errWriteTimeout : error := errors_New "write timeout must be greater than 0".
Definition errShutdownTimeout : error :=
  errors_New "shutdown timeout must be greater than 0".
Definition errTLS (cause : error) : error :=
  fmt_Errorf_w "tls must be configured correctly if provided: " cause.

(** [Validate] updates the receiver and returns an error or nil: the
    result is the updated configuration and the error. *)
Definition Validate (c : Config) : Config * option error :=
  let c := setDefaultZeroValues c in
  if Port c <=? 0 then (c, Some errPort)
  else if IdleTimeout c <=? 0 then (c, Some errIdleTimeout)
  else if ReadTimeout c <=? 0 then (c, Some errReadTimeout)
  else if WriteTimeout c <=? 0 then (c, Some errWriteTimeout)
  else if ShutdownTimeout c <=? 0 then (c, Some errShutdownTimeout)
  else match TLS c, tlsErr c with
       | Some _, Some e => (c, Some (errTLS e))
       | _, _ => (c, None)
       end.

(** ** Options (src/unnamed/part_000) *)

(** One constructor per struct type implementing [ConfigOption]; the
    arguments are the struct's fields. *)
#[local] Set Warnings "-register-all".

Inductive ConfigOption : Type :=
| hostOption (value : string)
| portOption (value : Z)
| idleTimeoutOption (value : Z)
| readTimeoutOption (value : Z)
| writeTimeoutOption (value : Z)
| shutdownTimeoutOption (value : Z)
| tlsOption (value : option tlsConfig) (err : option error)
| configOption (value : Config)
| configOptions (value : list ConfigOption).

Definition WithHost (v : string) : ConfigOption := hostOption v.
Definition WithPort (v : Z) : ConfigOption := portOption v.
Definition WithIdleTimeout (v : Z) : ConfigOption := idleTimeoutOption v.
Definition WithReadTimeout (v : Z) : ConfigOption := readTimeoutOption v.
Definition WithWriteTimeout (v : Z) : ConfigOption := writeTimeoutOption v.
Definition WithShutdownTimeout (v : Z) : ConfigOption := shutdownTimeoutOption v.
Definition WithConfig (v : Config) : ConfigOption := configOption v.
Definition WithConfigOptions (v : list ConfigOption) : ConfigOption := configOptions v.

(** The method [applyToConfig] of each struct.  The inner [range] is the
    loop [for _, opt := range o.value { opt.applyToConfig(cfg) }]. *)
Fixpoint applyToConfig (o : ConfigOption) (cfg : Config) {struct o} : Config :=
  match o with
  | hostOption value => set_Host cfg value
  | portOption value => set_Port cfg value
  | idleTimeoutOption value => set_IdleTimeout cfg value
  | readTimeoutOption value => set_ReadTimeout cfg value
  | writeTimeoutOption value => set_WriteTimeout cfg value
  | shutdownTimeoutOption value => set_ShutdownTimeout cfg value
  | tlsOption value err => set_TLS cfg value err
  | configOption value => Override cfg value
  | configOptions value =>
      (fix range (opts : list ConfigOption) (cfg : Config) {struct opts} : Config :=
         match opts with
         | [] => cfg
         | opt :: rest => range rest (applyToConfig opt cfg)
         end) value cfg
  end.

(** The same loop at the head of [Serve]:
    [for _, opt := range opts { opt.applyToConfig(&cfg) }]. *)
Fixpoint applyOptions (opts : list ConfigOption) (cfg : Config) : Config :=
  match opts with
  | [] => cfg
  | opt :: rest => applyOptions rest (applyToConfig opt cfg)
  end.

(** The leaves of an option in depth-first, left-to-right order: what is
    left of it once every composite is replaced by its elements. *)
Fixpoint flatten (o : ConfigOption) : list ConfigOption :=
  match o with
  | configOptions value =>
      (fix each (opts : list ConfigOption) : list ConfigOption :=
         match opts with
         | [] => []
         | opt :: rest => (flatten opt ++ each rest)%list
         end) value
  | _ => [o]
  end.

Definition flattenAll (opts : list ConfigOption) : list ConfigOption :=
  flat_map flatten opts.

(** An option that is not a composite. *)
Definition isLeaf (o : ConfigOption) : bool :=
  match o with
  | configOptions _ => false
  | _ => true
  end.

(** ** The transport-security option (src/unnamed/part_000, WithTLS) *)

Section TransportSecurity.

(** The three library calls that touch the credential material.  A Go
    result [(v, err)] is the sum [v + error]; [AppendCertsFromPEM] returns
    the pool it updated and its [ok]. *)
Variable LoadX509KeyPair : string -> string -> Certificate + error.
Variable ReadFile : string -> string + error.
Variable AppendCertsFromPEM : CertPool -> string -> CertPool * bool.

Definition NewCertPool : CertPool := certPool [].

Definition WithTLS (caFile ceFile keyFile : string) : ConfigOption :=
  match LoadX509KeyPair ceFile keyFile with
  | inr err => tlsOption None (Some err)
  | inl ce =>
      match ReadFile caFile with
      | inr err => tlsOption None (Some err)
      | inl ca =>
          let pool := NewCertPool in
          let '(pool, ok) := AppendCertsFromPEM pool ca in
          if negb ok
          then tlsOption None (Some (errors_New "unable to append certs from PEM"))
          else tlsOption
                 (Some {| ClientAuth := RequireAndVerifyClientCert;
                          Certificates := [ce];
                          ClientCAs := pool;
                          MinVersion := VersionTLS12;
                          NextProtos := ["h2"; "http/1.1"] |})
                 None
      end
  end.

End TransportSecurity.

(** ** Configuration and options without transport security
       (src/httpkit/config.go) *)

Module Plain.

Record Config : Type := mkConfig {
  Host : string;
  Port : Z;
  IdleTimeout : Z;
  ReadTimeout : Z;
  WriteTimeout : Z;
  ShutdownTimeout : Z
}.

Definition zeroConfig : Config := mkConfig "" 0 0 0 0 0.

Definition DefaultConfig : Config :=
  mkConfig "" _defaultPort _defaultIdleTimeout _defaultReadTimeout
           _defaultWriteTimeout _defaultShutdownTimeout.

Definition set_Host (c : Config) (v : string) : Config :=
  mkConfig v (Port c) (IdleTimeout c) (ReadTimeout c) (WriteTimeout c)
           (ShutdownTimeout c).

Definition set_Port (c : Config) (v : Z) : Config :=
  mkConfig (Host c) v (IdleTimeout c) (ReadTimeout c) (WriteTimeout c)
           (ShutdownTimeout c).

Definition set_IdleTimeout (c : Config) (v : Z) : Config :=
  mkConfig (Host c) (Port c) v (ReadTimeout c) (WriteTimeout c)
           (ShutdownTimeout c).

Definition set_ReadTimeout (c : Config) (v : Z) : Config :=
  mkConfig (Host c) (Port c) (IdleTimeout c) v (WriteTimeout c)
           (ShutdownTimeout c).

Definition set_WriteTimeout (c : Config) (v : Z) : Config :=
  mkConfig (Host c) (Port c) (IdleTimeout c) (ReadTimeout c) v
           (ShutdownTimeout c).

Definition set_ShutdownTimeout (c : Config) (v : Z) : Config :=
  mkConfig (Host c) (Port c) (IdleTimeout c) (ReadTimeout c) (WriteTimeout c) v.

Definition Addr (c : Config) : string := JoinHostPort (Host c) (Itoa (Port c)).

Definition Override (c other : Config) : Config :=
  let c := if negb (String.eqb (Host other) "") then set_Host c (Host other) else c in
  let c := if negb (Port other =? 0) then set_Port c (Port other) else c in
  let c := if negb (IdleTimeout other =? 0)
           then set_IdleTimeout c (IdleTimeout other) else c in
  let c := if negb (ReadTimeout other =? 0)
           then set_ReadTimeout c (ReadTimeout other) else c in
  let c := if negb (WriteTimeout other =? 0)
           then set_WriteTimeout c (WriteTimeout other) else c in
  let c := if negb (ShutdownTimeout other =? 0)
           then set_ShutdownTimeout c (ShutdownTimeout other) else c in
  c.

Definition setDefaultZeroValues (c : Config) : Config :=
  let c := if Port c <=? 0 then set_Port c _defaultPort else c in
  let c := if IdleTimeout c <=? 0 then set_IdleTimeout c _defaultIdleTimeout else c in
  let c := if ReadTimeout c <=? 0 then set_ReadTimeout c _defaultReadTimeout else c in
  let c := if WriteTimeout c <=? 0 then set_WriteTimeout c _defaultWriteTimeout else c in
  let c := if ShutdownTimeout c <=? 0
           then set_ShutdownTimeout c _defaultShutdownTimeout else c in
  c.

Definition Validate (c : Config) : Config * option error :=
  let c := setDefaultZeroValues c in
  if Port c <=? 0 then (c, Some errPort)
  else if IdleTimeout c <=? 0 then (c, Some errIdleTimeout)
  else if ReadTimeout c <=? 0 then (c, Some errReadTimeout)
  else if WriteTimeout c <=? 0 then (c, Some errWriteTimeout)
  else if ShutdownTimeout c <=? 0 then (c, Some errShutdownTimeout)
  else (c, None).

Inductive ConfigOption : Type :=
| hostOption (value : string)
| portOption (value : Z)
| idleTimeoutOption (value : Z)
| readTimeoutOption (value : Z)
| writeTimeoutOption (value : Z)
| shutdownTimeoutOption (value : Z)
| configOption (value : Config)
| configOptions (value : list ConfigOption).

Definition WithHost (v : string) : ConfigOption := hostOption v.
Definition WithPort (v : Z) : ConfigOption := portOption v.
Definition WithIdleTimeout (v : Z) : ConfigOption := idleTimeoutOption v.
Definition WithReadTimeout (v : Z) : ConfigOption := readTimeoutOption v.
Definition WithWriteTimeout (v : Z) : ConfigOption := writeTimeoutOption v.
Definition WithShutdownTimeout (v : Z) : ConfigOption := shutdownTimeoutOption v.
Definition WithConfig (v : Config) : ConfigOption := configOption v.
Definition WithConfigOptions (v : list ConfigOption) : ConfigOption := configOptions v.

Fixpoint applyToConfig (o : ConfigOption) (cfg : Config) {struct o} : Config :=
  match o with
  | hostOption value => set_Host cfg value
  | portOption value => set_Port cfg value
  | idleTimeoutOption value => set_IdleTimeout cfg value
  | readTimeoutOption value => set_ReadTimeout cfg value
  | writeTimeoutOption value => set_WriteTimeout cfg value
  | shutdownTimeoutOption value => set_ShutdownTimeout cfg value
  | configOption value => Override cfg value
  | configOptions value =>
      (fix range (opts : list ConfigOption) (cfg : Config) {struct opts} : Config :=
         match opts with
         | [] => cfg
         | opt :: rest => range rest (applyToConfig opt cfg)
         end) value cfg
  end.

Fixpoint applyOptions (opts : list ConfigOption) (cfg : Config) : Config :=
  match opts with
  | [] => cfg
  | opt :: rest => applyOptions rest (applyToConfig opt cfg)
  end.

Fixpoint flatten (o : ConfigOption) : list ConfigOption :=
  match o with
  | configOptions value =>
      (fix each (opts : list ConfigOption) : list ConfigOption :=
         match opts with
         | [] => []
         | opt :: rest => (flatten opt ++ each rest)%list
         end) value
  | _ => [o]
  end.

Definition flattenAll (opts : list ConfigOption) : list ConfigOption :=
  flat_map flatten opts.

Definition isLeaf (o : ConfigOption) : bool :=
  match o with
  | configOptions _ => false
  | _ => true
  end.

End Plain.

(** ** The lifecycle (src/httpkit/httpkit.go) *)

(** Errors are compared by structure: two errors built by [errors.New]
    from the same message are not told apart. *)
Fixpoint error_eqb (a b : error) : bool :=
  match a, b with
  | errorString s, errorString t => String.eqb s t
  | wrapError m e, wrapError n f => String.eqb m n && error_eqb e f
  | _, _ => false
  end.

(** [errors.Is]: the target is looked for along the chain of wrapped
    errors. *)
Fixpoint errors_Is (err target : error) : bool :=
  error_eqb err target ||
  match err with
  | errorString _ => false
  | wrapError _ inner => errors_Is inner target
  end.

Module http.

(** The fields of [http.Server] that [Serve] fills in. *)
Record Server (H : Type) : Type := mkServer {
  Addr : string;
  Handler : H;
  IdleTimeout : Z;
  ReadTimeout : Z;
  WriteTimeout : Z
}.

Arguments mkServer {H}.

Definition ErrServerClosed : error := errors_New "http: Server closed".

End http.

Inductive Signal : Type := SIGINT | SIGTERM.

Section Lifecycle.

(** Values of the run-time system that [Serve] only passes around. *)
Variable Context : Type.
Variable Handler : Type.
Variable Group : Type.
Variable CancelFunc : Type.

(** What a task given to [eg.Go] does to the outside. *)
Variant taskE : Type -> Type :=
| ListenAndServe (srv : http.Server Handler) : taskE (option error)
| Done (ctx : Context) : taskE unit
| WithTimeout (ctx : Context) (d : Z) : taskE (Context * CancelFunc)
| Shutdown (srv : http.Server Handler) (ctx : Context) : taskE (option error)
| Cancel (cancel : CancelFunc) : taskE unit.

(** What [Serve] itself does to the outside: install the signal
    interception, make the error group, launch a task, wait for the
    tasks, call the deferred [stop]. *)
Variant serveE : Type -> Type :=
| NotifyContext (ctx : Context) (sigs : list Signal) : serveE (Context * CancelFunc)
| WithContext (ctx : Context) : serveE (Group * Context)
| Go (eg : Group) (f : itree taskE (option error)) : serveE unit
| Wait (eg : Group) : serveE (option error)
| Stop (stop : CancelFunc) : serveE unit.

Import ITreeNotations.
Local Open Scope itree_scope.

Definition withErrGroupNotifyContext (ctx : Context)
  : itree serveE (Group * Context * CancelFunc) :=
  '(ctx, cancel) <- ITree.trigger (NotifyContext ctx [SIGINT; SIGTERM]) ;;
  '(eg, ctx) <- ITree.trigger (WithContext ctx) ;;
  Ret (eg, ctx, cancel).

(** The first task: the listener. *)
Definition serveTask (srv : http.Server Handler) : itree taskE (option error) :=
  err <- ITree.trigger (ListenAndServe srv) ;;
  match err with
  | Some e => if negb (errors_Is e http.ErrServerClosed) then Ret (Some e) else Ret None
  | None => Ret None
  end.

(** The second task: the shutdown watcher. *)
Definition shutdownTask (egCtx ctx : Context) (cfg : Config) (srv : http.Server Handler)
  : itree taskE (option error) :=
  ITree.trigger (Done egCtx) ;;
  '(shutdownCtx, cancel) <- ITree.trigger (WithTimeout ctx (ShutdownTimeout cfg)) ;;
  r <- ITree.trigger (Shutdown srv shutdownCtx) ;;
  ITree.trigger (Cancel cancel) ;;
  Ret r.

Definition Serve (ctx : Context) (h : Handler) (opts : list ConfigOption)
  : itree serveE (option error) :=
  let cfg := zeroConfig in
  let cfg := applyOptions opts cfg in
  let '(cfg, err) := Validate cfg in
  match err with
  | Some err => Ret (Some err)
  | None =>
      let srv := http.mkServer (Addr cfg) h (IdleTimeout cfg) (ReadTimeout cfg)
                               (WriteTimeout cfg) in
      '(eg, egCtx, stop) <- withErrGroupNotifyContext ctx ;;
      ITree.trigger (Go eg (serveTask srv)) ;;
      ITree.trigger (Go eg (shutdownTask egCtx ctx cfg srv)) ;;
      r <- ITree.trigger (Wait eg) ;;
      ITree.trigger (Stop stop) ;;
      Ret r
  end.

(** The effect [Serve] starts with, if it has one. *)
Variant firstStep : Type :=
| returns (r : option error)
| silentStep
| performs {X : Type} (e : serveE X).

Definition firstStepOf (t : itree serveE (option error)) : firstStep :=
  match observe t with
  | RetF r => returns r
  | TauF _ => silentStep
  | VisF e _ => performs e
  end.

End Lifecycle.

(** ** Vocabulary of the properties *)

(** The deferred construction error an option carries, if it is a
    transport-security option that carries one. *)
Definition constructionError (o : ConfigOption) : option error :=
  match o with
  | tlsOption _ err => err
  | _ => None
  end.

(** No transport-security option inside [o] holds a context and an error
    at once. *)
Fixpoint tlsExclusive (o : ConfigOption) : bool :=
  match o with
  | tlsOption (Some _) (Some _) => false
  | configOptions value =>
      (fix all (opts : list ConfigOption) : bool :=
         match opts with
         | [] => true
         | opt :: rest => tlsExclusive opt && all rest
         end) value
  | _ => true
  end.

(** The configuration does not hold a context and an error at once. *)
Definition exclusiveConfig (c : Config) : bool :=
  match TLS c, tlsErr c with
  | Some _, Some _ => false
  | _, _ => true
  end.

(** How a sparse patch treats one field: [patch] replaces [target] when it
    is not the zero value [zero] of its type, and [target] stays
    otherwise. *)
Definition patchedField {A : Type} (zero target patch result : A) : Prop :=
  (patch <> zero -> result = patch) /\ (patch = zero -> result = target).

(** A machine on which no credential file can be opened and no PEM text
    parses: an instance of the three library calls of [WithTLS]. *)
Definition missingKeyPair (ceFile keyFile : string) : Certificate + error :=
  inr (errors_New ("open " ++ ceFile ++ ": no such file or directory")).

Definition missingFile (name : string) : string + error :=
  inr (errors_New ("open " ++ name ++ ": no such file or directory")).

Definition rejectPEM (pool : CertPool) (pem : string) : CertPool * bool :=
  (pool, false).

(** The configuration of src/httpkit/config.go inside the one of
    src/unnamed/part_000: the six fields the two files share. *)
Definition dropTLS (c : Config) : Plain.Config :=
  Plain.mkConfig (Host c) (Port c) (IdleTimeout c) (ReadTimeout c)
                 (WriteTimeout c) (ShutdownTimeout c).

(** One option after the other, in the order of the list. *)
Definition applyInOrder (l : list ConfigOption) (c : Config) : Config :=
  fold_left (fun cfg opt => applyToConfig opt cfg) l c.

Definition Plain_applyInOrder (l : list Plain.ConfigOption) (c : Plain.Config)
  : Plain.Config :=
  fold_left (fun cfg opt => Plain.applyToConfig opt cfg) l c.

(** ** The options a caller outside the package can build *)

(** The struct types are unexported: outside the package an option is
    built by one of the nine exported constructors, [WithTLS] with the
    credential files as the machine reads them. *)
Inductive exported
  (load : string -> string -> Certificate + error)
  (read : string -> string + error)
  (append : CertPool -> string -> CertPool * bool) : ConfigOption -> Prop :=
| exported_host v : exported load read append (WithHost v)
| exported_port v : exported load read append (WithPort v)
| exported_idle v : exported load read append (WithIdleTimeout v)
| exported_read v : exported load read append (WithReadTimeout v)
| exported_write v : exported load read append (WithWriteTimeout v)
| exported_shutdown v : exported load read append (WithShutdownTimeout v)
| exported_tls caFile ceFile keyFile :
    exported load read append (WithTLS load read append caFile ceFile keyFile)
| exported_config v : exported load read append (WithConfig v)
| exported_options l :
    Forall (exported load read append) l ->
    exported load read append (WithConfigOptions l).

(** A machine on which the credential files are there and parse. *)
Definition presentKeyPair (ceFile keyFile : string) : Certificate + error :=
  inl (X509KeyPair ceFile keyFile).

Definition presentFile (name : string) : string + error := inl name.

Definition acceptPEM (pool : CertPool) (pem : string) : CertPool * bool :=
  match pool with
  | certPool bundles => (certPool (bundles ++ [pem])%list, true)
  end.

(** ** Running a computation against the outside *)

Section Run.

Context {E : Type -> Type} {R : Type}.

(** What the outside answers to each call. *)
Variable answer : forall X : Type, E X -> X.

(** One call to the outside, packed with its answer type. *)
Definition call {X : Type} (e : E X) : {X : Type & E X} := existT _ X e.

(** The calls a computation makes, in order, and what it returns, when
    every call is answered by [answer]; [None] when [fuel] steps were not
    enough to reach the end. *)
Fixpoint run (fuel : nat) (t : itree E R) : list {X : Type & E X} * option R :=
  match fuel with
  | O => ([], None)
  | S fuel =>
      match observe t with
      | RetF r => ([], Some r)
      | TauF t => run fuel t
      | VisF e k =>
          let '(trace, r) := run fuel (k (answer _ e)) in
          (call e :: trace, r)
      end
  end.

End Run.

(** A computation comes to an end against [answer], and the number of
    steps, the calls made and the result satisfy [Q]. *)
Definition finishes {E : Type -> Type} {R : Type}
  (answer : forall X : Type, E X -> X) (t : itree E R)
  (Q : nat -> list {X : Type & E X} -> R -> Prop) : Prop :=
  exists n trace r, run answer n t = (trace, Some r) /\ Q n trace r.

(** The errors reached from [e] by unwrapping, [e] first. *)
Fixpoint chain (e : error) : list error :=
  e :: match e with
       | errorString _ => []
       | wrapError _ inner => chain inner
       end.

(** An outside that hands back unit handles and reports no error. *)
Definition quietServe (X : Type) (e : serveE unit unit unit unit X) : X :=
  match e in serveE _ _ _ _ X return X with
  | NotifyContext _ _ _ _ _ _ => (tt, tt)
  | WithContext _ _ _ _ _ => (tt, tt)
  | Go _ _ _ _ _ _ => tt
  | Wait _ _ _ _ _ => None
  | Stop _ _ _ _ _ => tt
  end.

(** An outside whose listener ends with [cause] and whose shutdown
    succeeds. *)
Definition closingTask (cause : option error) (X : Type) (e : taskE unit unit unit X) : X :=
  match e in taskE _ _ _ X return X with
  | ListenAndServe _ _ _ _ => cause
  | Done _ _ _ _ => tt
  | WithTimeout _ _ _ _ _ => (tt, tt)
  | Shutdown _ _ _ _ _ => None
  | Cancel _ _ _ _ => tt
  end.

(** * Package pgxkit (src/pgxkit/pgxkit.go, src/pgxkit/client.go) *)

Module pgxkit.

(** ** Errors *)

(** [*pgconn.PgError], by the fields that its code and its text are made
    of. *)
Record PgError : Type := mkPgError {
  Severity : string;
  Code : string;
  Message : string
}.

(** The errors this package meets.  Go compares the package-level errors
    made by [errors.New] by identity, so each is a constructor of its own:
    [ErrNotFound] and [ErrAlreadyExists] of this package and
    [pgx.ErrNoRows].  The others are a [*pgconn.PgError], an error that
    wraps another one, and any error that wraps nothing. *)
Inductive error : Type :=
| ErrNotFound
| ErrAlreadyExists
| ErrNoRows
| pgError (pgerr : PgError)
| wrapError (msg : string) (err : error)
| leafError (msg : string).

(** [errors.Is(err, pgx.ErrNoRows)]. *)
Fixpoint isErrNoRows (err : error) : bool :=
  match err with
  | ErrNoRows => true
  | wrapError _ inner => isErrNoRows inner
  | _ => false
  end.

(** [errors.As(err, &pgerr)]: the first [*pgconn.PgError] met when
    unwrapping. *)
Fixpoint asPgError (err : error) : option PgError :=
  match err with
  | pgError pgerr => Some pgerr
  | wrapError _ inner => asPgError inner
  | _ => None
  end.

(** The SQLSTATE codes of package pgerrcode that [mapCode] names. *)
Definition NoData : string := "02000".
Definition NoDataFound : string := "P0002".
Definition UniqueViolation : string := "23505".

Definition mapCode (pgerr : PgError) : option error :=
  if String.eqb (Code pgerr) NoData || String.eqb (Code pgerr) NoDataFound
  then Some ErrNotFound
  else if String.eqb (Code pgerr) UniqueViolation
  then Some ErrAlreadyExists
  else Some (pgError pgerr).

Definition mapErr (err : option error) : option error :=
  match err with
  | None => None
  | Some e =>
      if isErrNoRows e then Some ErrNotFound
      else match asPgError e with
           | Some pgerr => mapCode pgerr
           | None => Some e
           end
  end.

(** ** Migration actions *)

(** [type MigrateAction string]. *)
Definition MigrateAction : Type := string.

Definition MigrateUp : MigrateAction := "up".
Definition MigrateDown : MigrateAction := "down".

(** [c < utf8.RuneSelf]. *)
Definition isASCIIByte (c : ascii) : bool := (N_of_ascii c <? 128)%N.

Fixpoint isASCII (s : string) : bool :=
  match s with
  | EmptyString => true
  | String c rest => isASCIIByte c && isASCII rest
  end.

(** ['A' <= c && c <= 'Z'] moves [c] by ['a' - 'A']. *)
Definition lowerByte (c : ascii) : ascii :=
  if ((65 <=? N_of_ascii c) && (N_of_ascii c <=? 90))%N
  then ascii_of_N (N_of_ascii c + 32)
  else c.

Fixpoint lowerBytes (s : string) : string :=
  match s with
  | EmptyString => EmptyString
  | String c rest => String (lowerByte c) (lowerBytes rest)
  end.

Section Parsing.

(** [strings.Map(unicode.ToLower, s)], which [strings.ToLower] falls back
    to when [s] has a byte outside ASCII. *)
Variable unicodeToLower : string -> string.

Definition ToLower (s : string) : string :=
  if isASCII s then lowerBytes s else unicodeToLower s.

Definition ParseMigrateAction (s : string) : MigrateAction * option error :=
  let l := ToLower s in
  if String.eqb l "up" then (MigrateUp, None)
  else if String.eqb l "down" then (MigrateDown, None)
  else ("", Some (leafError ("invalid migrate action: " ++ s))).

Record MigrateActionFlag : Type := mkFlag {
  IsSet : bool;
  Val : MigrateAction
}.

(** [Set] updates the receiver and returns an error or nil. *)
Definition Set_ (f : MigrateActionFlag) (s : string) : MigrateActionFlag * option error :=
  let '(act, err) := ParseMigrateAction s in
  match err with
  | Some err => (f, Some err)
  | None =>
      let f := mkFlag (IsSet f) act in
      let f := mkFlag true (Val f) in
      (f, None)
  end.

Definition String_ (f : MigrateActionFlag) : string := Val f.

End Parsing.

(** ** The client (src/pgxkit/client.go) *)

(** [err.Error()]. *)
Definition Error_ (err : error) : string :=
  match err with
  | ErrNotFound => "not found"
  | ErrAlreadyExists => "already exists"
  | ErrNoRows => "no rows in result set"
  | pgError p => Severity p ++ ": " ++ Message p ++ " (SQLSTATE " ++ Code p ++ ")"
  | wrapError msg _ => msg
  | leafError msg => msg
  end.

(** [fmt.Errorf(prefix + "%w", err)]. *)
Definition Errorf_w (prefix : string) (err : error) : error :=
  wrapError (prefix ++ Error_ err) err.

(** [info.IsDir()] is all that is asked of a [fs.FileInfo]. *)
Record FileInfo : Type := mkFileInfo { IsDir : bool }.

(** The attributes given to the logger. *)
Inductive logAttr : Type :=
| boolAttr (key : string) (value : bool)
| stringAttr (key : string) (value : string)
| groupAttr (key : string) (attrs : list logAttr).

Definition _defaultVersionTable : string := "public.schema_version".
Definition _defaultSubtree : string := "migrations".

Section Client.

(** Values of the libraries that the client only passes around.  A
    pointer or an interface that may be nil is an [option]. *)
Variable Context : Type.
Variable Logger : Type.
Variable FS : Type.
Variable Pool : Type.
Variable PoolConn : Type.
Variable Conn : Type.
Variable Migrator : Type.

Record client : Type := mkClient {
  log : option Logger;
  url : string;
  opened : bool;
  migrations : option FS;
  migrateAction : MigrateActionFlag;
  pool : option Pool
}.

(** [ClientOptionFunc] is the type of the functions that update a client
    through a pointer; its method [applyToClient] calls the function. *)
Definition ClientOptionFunc : Type := client -> client.

Definition applyToClient (f : ClientOptionFunc) (c : client) : client := f c.

Definition WithLogger (l : option Logger) : ClientOptionFunc :=
  fun c => mkClient l (url c) (opened c) (migrations c) (migrateAction c) (pool c).

Definition WithMigrations (fsys : option FS) (act : MigrateAction) : ClientOptionFunc :=
  fun c =>
    let c := mkClient (log c) (url c) (opened c) fsys (migrateAction c) (pool c) in
    mkClient (log c) (url c) (opened c) (migrations c) (mkFlag true act) (pool c).

Fixpoint applyClientOptions (opts : list ClientOptionFunc) (c : client) : client :=
  match opts with
  | [] => c
  | opt :: rest => applyClientOptions rest (applyToClient opt c)
  end.

Definition NewClient (url : string) (opts : list ClientOptionFunc) : client :=
  let c := mkClient None url false None (mkFlag false "") None in
  applyClientOptions opts c.

(** The calls the client makes to pgxpool, pgx, io/fs, tern and slog. *)
Variant clientE : Type -> Type :=
| PoolNew (ctx : Context) (url : string) : clientE (Pool + error)
| Ping (db : Pool) (ctx : Context) : clientE (option error)
| LogInfo (l : option Logger) (msg : string) (attrs : list logAttr) : clientE unit
| LogError (l : option Logger) (msg : string) (attrs : list logAttr) : clientE unit
| Acquire (p : option Pool) (ctx : Context) : clientE (PoolConn + error)
| Hijack (conn : PoolConn) : clientE Conn
| Stat (fsys : option FS) (name : string) : clientE (FileInfo + error)
| Sub (fsys : option FS) (dir : string) : clientE (FS + error)
| NewMigrator (ctx : Context) (conn : Conn) (versionTable : string)
    : clientE (Migrator + error)
| LoadMigrations (mg : Migrator) (fsys : option FS) : clientE (option error)
| SetOnStart (mg : Migrator) (l : Logger) : clientE unit
| MigratorMigrate (mg : Migrator) (ctx : Context) : clientE (option error)
| MigratorMigrateTo (mg : Migrator) (ctx : Context) (target : Z) : clientE (option error)
| ConnClose (conn : Conn) (ctx : Context) : clientE (option error).

Import ITreeNotations.
Local Open Scope itree_scope.

(** The package function [Open]. *)
Definition Open (ctx : Context) (url : string) : itree clientE (Pool + error) :=
  r <- ITree.trigger (PoolNew ctx url) ;;
  match r with
  | inr err => Ret (inr err)
  | inl db =>
      err <- ITree.trigger (Ping db ctx) ;;
      match err with
      | Some err => Ret (inr err)
      | None => Ret (inl db)
      end
  end.

(** The method [Conn]; [c.Acquire] is the [Acquire] of the embedded pool. *)
Definition client_Conn (c : client) (ctx : Context) : itree clientE (Conn + error) :=
  r <- ITree.trigger (Acquire (pool c) ctx) ;;
  match r with
  | inr err => Ret (inr err)
  | inl conn => hijacked <- ITree.trigger (Hijack conn) ;; Ret (inl hijacked)
  end.

Definition hasNestedFS (c : client) (fsys : option FS) : itree clientE bool :=
  r <- ITree.trigger (Stat fsys _defaultSubtree) ;;
  match r with
  | inl info => Ret (IsDir info)
  | inr _ => Ret false
  end.

Definition closeConn (c : client) (ctx : Context) (conn : Conn) : itree clientE unit :=
  err <- ITree.trigger (ConnClose conn ctx) ;;
  match err with
  | Some err =>
      ITree.trigger
        (LogError (log c) "closing connection"
                  [groupAttr "error" [stringAttr "msg" (Error_ err)]])
  | None => Ret tt
  end.

(** The method [Migrate].  The deferred [closeConn] runs when the body
    that follows the [defer] has produced the result. *)
Definition client_Migrate (c : client) (ctx : Context) (fsys : option FS)
  (act : MigrateAction) : itree clientE (option error) :=
  r <- client_Conn c ctx ;;
  match r with
  | inr err => Ret (Some (Errorf_w "acquiring connection: " err))
  | inl conn =>
      result <-
        (nested <- hasNestedFS c fsys ;;
         sub <- (if nested
                 then r <- ITree.trigger (Sub fsys _defaultSubtree) ;;
                      match r with
                      | inl sub => Ret (inl (Some sub))
                      | inr err => Ret (inr err)
                      end
                 else Ret (inl fsys)) ;;
         match sub with
         | inr err => Ret (Some (Errorf_w "sub migrations directory: " err))
         | inl fsys =>
             r <- ITree.trigger (NewMigrator ctx conn _defaultVersionTable) ;;
             match r with
             | inr err => Ret (Some (Errorf_w "creating migrator: " err))
             | inl mg =>
                 err <- ITree.trigger (LoadMigrations mg fsys) ;;
                 match err with
                 | Some err => Ret (Some (Errorf_w "load migrations: " err))
                 | None =>
                     match log c with
                     | Some l => ITree.trigger (SetOnStart mg l)
                     | None => Ret tt
                     end ;;
                     if String.eqb act MigrateUp
                     then ITree.trigger (MigratorMigrate mg ctx)
                     else if String.eqb act MigrateDown
                     then ITree.trigger (MigratorMigrateTo mg ctx 0)
                     else Ret (Some (leafError ("invalid migrate action: " ++ act)))
                 end
             end
         end) ;;
      closeConn c ctx conn ;;
      Ret result
  end.

(** The method [Open]: the client as it is left, and the error. *)
Definition client_Open (c : client) (ctx : Context) : itree clientE (client * option error) :=
  if opened c then Ret (c, None)
  else
    r <- Open ctx (url c) ;;
    match r with
    | inr err => Ret (c, Some err)
    | inl db =>
        let c := mkClient (log c) (url c) (opened c) (migrations c) (migrateAction c)
                          (Some db) in
        let c := mkClient (log c) (url c) true (migrations c) (migrateAction c)
                          (pool c) in
        ITree.trigger
          (LogInfo (log c) "migrations"
                   [boolAttr "provided"
                             (match migrations c with Some _ => true | None => false end)]) ;;
        if match migrations c with Some _ => true | None => false end
           && IsSet (migrateAction c)
        then
          err <- client_Migrate c ctx (migrations c) (Val (migrateAction c)) ;;
          match err with
          | Some err => Ret (c, Some err)
          | None => Ret (c, None)
          end
        else Ret (c, None)
    end.

(** *** Vocabulary of the client's properties *)

(** The options a caller outside the package can build: the results of
    the two exported constructors. *)
Inductive exportedOption : Type :=
| optLogger (l : option Logger)
| optMigrations (fsys : option FS) (act : MigrateAction).

Definition build (d : exportedOption) : ClientOptionFunc :=
  match d with
  | optLogger l => WithLogger l
  | optMigrations fsys act => WithMigrations fsys act
  end.

(** The logger of the last [WithLogger] of a list, nil when there is
    none; the file system and the action of the last [WithMigrations]. *)
Definition lastLogger (ds : list exportedOption) : option Logger :=
  match find (fun d => match d with optLogger _ => true | _ => false end) (rev ds) with
  | Some (optLogger l) => l
  | _ => None
  end.

Definition lastMigrations (ds : list exportedOption) : option (option FS * MigrateAction) :=
  match find (fun d => match d with optMigrations _ _ => true | _ => false end) (rev ds) with
  | Some (optMigrations fsys act) => Some (fsys, act)
  | _ => None
  end.

(** Kinds of calls. *)
Definition closesConn (ev : {X : Type & clientE X}) : bool :=
  match projT2 ev with
  | ConnClose _ _ => true
  | _ => false
  end.

Definition runsMigration (ev : {X : Type & clientE X}) : bool :=
  match projT2 ev with
  | MigratorMigrate _ _ => true
  | MigratorMigrateTo _ _ _ => true
  | _ => false
  end.

Definition acquiresConn (ev : {X : Type & clientE X}) : bool :=
  match projT2 ev with
  | Acquire _ _ => true
  | _ => false
  end.

(** The calls that follow the first closing of a connection. *)
Fixpoint afterClose (trace : list {X : Type & clientE X}) : list {X : Type & clientE X} :=
  match trace with
  | [] => []
  | ev :: rest => if closesConn ev then rest else afterClose rest
  end.

End Client.

(** An outside with unit handles where every call succeeds, the
    directory "migrations" exists and closing the connection fails with
    [closeErr]. *)
Definition smoothClient (closeErr : option error) (X : Type)
  (e : clientE unit unit unit unit unit unit unit X) : X :=
  match e in clientE _ _ _ _ _ _ _ X return X with
  | PoolNew _ _ _ _ _ _ _ _ _ => inl tt
  | Ping _ _ _ _ _ _ _ _ _ => None
  | LogInfo _ _ _ _ _ _ _ _ _ _ => tt
  | LogError _ _ _ _ _ _ _ _ _ _ => tt
  | Acquire _ _ _ _ _ _ _ _ _ => inl tt
  | Hijack _ _ _ _ _ _ _ _ => tt
  | Stat _ _ _ _ _ _ _ _ _ => inl (mkFileInfo true)
  | Sub _ _ _ _ _ _ _ _ _ => inl tt
  | NewMigrator _ _ _ _ _ _ _ _ _ _ => inl tt
  | LoadMigrations _ _ _ _ _ _ _ _ _ => None
  | SetOnStart _ _ _ _ _ _ _ _ _ => tt
  | MigratorMigrate _ _ _ _ _ _ _ _ _ => None
  | MigratorMigrateTo _ _ _ _ _ _ _ _ _ _ => None
  | ConnClose _ _ _ _ _ _ _ _ _ => closeErr
  end.


End pgxkit.

(** ** Vocabulary of the further properties *)

(** The context and the error of the last transport-security option of a
    list of options, if there is one. *)
Definition lastTLS (opts : list ConfigOption) : option (option tlsConfig * option error) :=
  match find (fun o => match o with tlsOption _ _ => true | _ => false end) (rev opts) with
  | Some (tlsOption v e) => Some (v, e)
  | _ => None
  end.

(** Two values of a numeric field that default filling makes equal: they
    are equal, or one is the default and the other is unset. *)
Definition agreeUpToDefault (dflt a b : Z) : Prop :=
  a = b \/ (a = dflt /\ b = 0).

(** Two configurations that differ only where the first holds a default
    and the second nothing. *)
Definition sameUpToDefaults (c1 c0 : Config) : Prop :=
  Host c1 = Host c0 /\
  agreeUpToDefault _defaultPort (Port c1) (Port c0) /\
  agreeUpToDefault _defaultIdleTimeout (IdleTimeout c1) (IdleTimeout c0) /\
  agreeUpToDefault _defaultReadTimeout (ReadTimeout c1) (ReadTimeout c0) /\
  agreeUpToDefault _defaultWriteTimeout (WriteTimeout c1) (WriteTimeout c0) /\
  agreeUpToDefault _defaultShutdownTimeout (ShutdownTimeout c1) (ShutdownTimeout c0) /\
  TLS c1 = TLS c0 /\
  tlsErr c1 = tlsErr c0.

Example Itoa_8080 : Itoa 8080 = "8080".
Proof. reflexivity. Qed.

Example Itoa_0 : Itoa 0 = "0".
Proof. reflexivity. Qed.

Example Itoa_minus_1 : Itoa (-1) = "-1".
Proof. reflexivity. Qed.

Example Addr_default : Addr DefaultConfig = ":8080".
Proof. reflexivity. Qed.

Example Addr_ipv6 : Addr (set_Host DefaultConfig "::1") = "[::1]:8080".
Proof. reflexivity. Qed.

(** * Properties *)

(** ** Default filling and validation *)

(** Case analysis on every test of the goal. *)
Ltac split_tests :=
  repeat match goal with
         | |- context [if ?b then _ else _] => destruct b eqn:?
         end.

Lemma setDefaultZeroValues_positive (c : Config) :
  0 < Port (setDefaultZeroValues c) /\
  0 < IdleTimeout (setDefaultZeroValues c) /\
  0 < ReadTimeout (setDefaultZeroValues c) /\
  0 < WriteTimeout (setDefaultZeroValues c) /\
  0 < ShutdownTimeout (setDefaultZeroValues c).
Proof.
  destruct c as [h p i r w s t e]. unfold setDefaultZeroValues. cbn.
  split_tests; cbn; repeat split;
    repeat match goal with
           | H : (_ <=? _) = false |- _ => apply Z.leb_gt in H
           end;
    try assumption; reflexivity.
Qed.

Lemma setDefaultZeroValues_TLS (c : Config) :
  TLS (setDefaultZeroValues c) = TLS c /\
  tlsErr (setDefaultZeroValues c) = tlsErr c.
Proof.
  destruct c as [h p i r w s t e]. unfold setDefaultZeroValues. cbn.
  split_tests; split; reflexivity.
Qed.

(** Once the defaults are filled in, none of the five numeric tests of
    [Validate] can hold: only the last check decides the result. *)
Lemma Validate_unfold (c : Config) :
  Validate c =
  (setDefaultZeroValues c,
   match TLS c, tlsErr c with
   | Some _, Some e => Some (errTLS e)
   | _, _ => None
   end).
Proof.
  unfold Validate.
  destruct (setDefaultZeroValues_positive c) as (Hp & Hi & Hr & Hw & Hs).
  destruct (setDefaultZeroValues_TLS c) as (Ht & He).
  apply Z.leb_gt in Hp, Hi, Hr, Hw, Hs.
  rewrite Hp, Hi, Hr, Hw, Hs, Ht, He.
  destruct (TLS c), (tlsErr c); reflexivity.
Qed.

Lemma Plain_setDefaultZeroValues_positive (c : Plain.Config) :
  0 < Plain.Port (Plain.setDefaultZeroValues c) /\
  0 < Plain.IdleTimeout (Plain.setDefaultZeroValues c) /\
  0 < Plain.ReadTimeout (Plain.setDefaultZeroValues c) /\
  0 < Plain.WriteTimeout (Plain.setDefaultZeroValues c) /\
  0 < Plain.ShutdownTimeout (Plain.setDefaultZeroValues c).
Proof.
  destruct c as [h p i r w s]. unfold Plain.setDefaultZeroValues. cbn.
  split_tests; cbn; repeat split;
    repeat match goal with
           | H : (_ <=? _) = false |- _ => apply Z.leb_gt in H
           end;
    try assumption; reflexivity.
Qed.

Lemma Plain_Validate_unfold (c : Plain.Config) :
  Plain.Validate c = (Plain.setDefaultZeroValues c, None).
Proof.
  unfold Plain.Validate.
  destruct (Plain_setDefaultZeroValues_positive c) as (Hp & Hi & Hr & Hw & Hs).
  apply Z.leb_gt in Hp, Hi, Hr, Hw, Hs.
  rewrite Hp, Hi, Hr, Hw, Hs. reflexivity.
Qed.

(** The two files do the same to the fields they share. *)
Lemma dropTLS_setDefaultZeroValues (c : Config) :
  dropTLS (setDefaultZeroValues c) = Plain.setDefaultZeroValues (dropTLS c).
Proof.
  destruct c as [h p i r w s t e].
  unfold setDefaultZeroValues, Plain.setDefaultZeroValues. cbn.
  destruct (p <=? 0); cbn; destruct (i <=? 0); cbn; destruct (r <=? 0); cbn;
    destruct (w <=? 0); cbn; destruct (s <=? 0); reflexivity.
Qed.

Lemma dropTLS_Validate (c : Config) :
  dropTLS (fst (Validate c)) = fst (Plain.Validate (dropTLS c)).
Proof.
  rewrite Validate_unfold, Plain_Validate_unfold. apply dropTLS_setDefaultZeroValues.
Qed.

(** [setDefaultZeroValues] changes nothing the second time. *)
Lemma setDefaultZeroValues_idempotent (c : Config) :
  setDefaultZeroValues (setDefaultZeroValues c) = setDefaultZeroValues c.
Proof.
  destruct (setDefaultZeroValues_positive c) as (Hp & Hi & Hr & Hw & Hs).
  apply Z.leb_gt in Hp, Hi, Hr, Hw, Hs.
  remember (setDefaultZeroValues c) as d eqn:Hd. clear Hd.
  unfold setDefaultZeroValues. rewrite Hp. cbv zeta.
  rewrite Hi. cbv zeta. rewrite Hr. cbv zeta. rewrite Hw. cbv zeta.
  rewrite Hs. reflexivity.
Qed.

(** C3.  Validating the configuration whose fields are all at their zero
    value returns nil and leaves exactly the built-in defaults: port 8080,
    idle timeout 60 s, read timeout 5 s, write timeout 10 s, shutdown
    timeout 10 s, in nanoseconds, with the host still empty (and, in the
    file with transport security, no TLS context and no deferred error).
    Both files agree. *)
Theorem Validate_zero_yields_defaults :
  Validate zeroConfig =
    (mkConfig "" 8080 60000000000 5000000000 10000000000 10000000000 None None,
     None) /\
  fst (Validate zeroConfig) = DefaultConfig /\
  Plain.Validate Plain.zeroConfig =
    (Plain.mkConfig "" 8080 60000000000 5000000000 10000000000 10000000000,
     None) /\
  fst (Plain.Validate Plain.zeroConfig) = Plain.DefaultConfig.
Proof.
  repeat split; reflexivity.
Qed.

(** C4.  Whenever [Validate] returns nil, the configuration it leaves has
    a strictly positive port and strictly positive idle, read, write and
    shutdown timeouts. *)
Theorem Validate_nil_fields_positive (c : Config) :
  snd (Validate c) = None ->
  0 < Port (fst (Validate c)) /\
  0 < IdleTimeout (fst (Validate c)) /\
  0 < ReadTimeout (fst (Validate c)) /\
  0 < WriteTimeout (fst (Validate c)) /\
  0 < ShutdownTimeout (fst (Validate c)).
Proof.
  intros _. rewrite Validate_unfold. cbn [fst].
  apply setDefaultZeroValues_positive.
Qed.

Lemma Validate_nil_fields_positive_witness :
  snd (Validate (mkConfig "localhost" 0 (-3) 250 0 1 None None)) = None /\
  0 < Port (fst (Validate (mkConfig "localhost" 0 (-3) 250 0 1 None None))) /\
  0 < IdleTimeout (fst (Validate (mkConfig "localhost" 0 (-3) 250 0 1 None None))) /\
  0 < ReadTimeout (fst (Validate (mkConfig "localhost" 0 (-3) 250 0 1 None None))) /\
  0 < WriteTimeout (fst (Validate (mkConfig "localhost" 0 (-3) 250 0 1 None None))) /\
  0 < ShutdownTimeout (fst (Validate (mkConfig "localhost" 0 (-3) 250 0 1 None None))).
Proof.
  split; [reflexivity |].
  apply (Validate_nil_fields_positive (mkConfig "localhost" 0 (-3) 250 0 1 None None)).
  reflexivity.
Defined.

(** C2.  What the code does on a port of -1: in both files
    [setDefaultZeroValues] replaces the non-positive port by 8080 before
    [Validate] tests it, so the port error is never returned and the
    configuration comes out with port 8080.  With the other fields unset
    the result is nil and the built-in defaults. *)
Theorem Validate_port_minus_one_not_rejected :
  (forall host idle read write shutdown tls terr,
     let c := mkConfig host (-1) idle read write shutdown tls terr in
     Port (fst (Validate c)) = 8080 /\ snd (Validate c) <> Some errPort) /\
  (forall host idle read write shutdown,
     let c := Plain.mkConfig host (-1) idle read write shutdown in
     Plain.Port (fst (Plain.Validate c)) = 8080 /\ snd (Plain.Validate c) = None) /\
  Validate (mkConfig "" (-1) 0 0 0 0 None None) = (DefaultConfig, None) /\
  Plain.Validate (Plain.mkConfig "" (-1) 0 0 0 0) = (Plain.DefaultConfig, None).
Proof.
  split; [| split; [| split; reflexivity]].
  - intros host idle read write shutdown tls terr c. subst c.
    rewrite Validate_unfold. cbn [fst snd]. split.
    + unfold setDefaultZeroValues. cbn. split_tests; reflexivity.
    + cbn. destruct tls, terr; discriminate.
  - intros host idle read write shutdown c. subst c.
    rewrite Plain_Validate_unfold. cbn [fst snd]. split; [| reflexivity].
    unfold Plain.setDefaultZeroValues. cbn. split_tests; reflexivity.
Qed.

(** C8.  What the code does when several numeric fields are invalid at
    once: nothing is reported.  [Validate] returns either nil or the
    wrapped transport-security error, whatever the port and the timeouts
    are; a port of -1 together with an idle timeout of -1 gives nil and
    the defaults, and next to a transport-security violation it is the
    latter, last in the order, that is reported. *)
Theorem Validate_reports_no_numeric_violation :
  (forall c : Config,
     snd (Validate c) = None \/
     exists cause, tlsErr c = Some cause /\ snd (Validate c) = Some (errTLS cause)) /\
  Validate (mkConfig "" (-1) (-1) 0 0 0 None None) = (DefaultConfig, None) /\
  Validate (mkConfig "" (-1) (-1) (-1) (-1) (-1) None None) = (DefaultConfig, None) /\
  (forall (tls : tlsConfig) (cause : error),
     snd (Validate (mkConfig "" (-1) (-1) 0 0 0 (Some tls) (Some cause))) =
     Some (errTLS cause)).
Proof.
  split; [| repeat split; reflexivity].
  intros c. rewrite Validate_unfold. cbn [snd].
  destruct (TLS c); [| left; reflexivity].
  destruct (tlsErr c) as [e |]; [| left; reflexivity].
  right. exists e. split; reflexivity.
Qed.

(** ** The transport-security option *)

(** [WithTLS] returns a transport-security option holding either a
    context or an error, never both and never neither. *)
Lemma WithTLS_outcome load read append caFile ceFile keyFile :
  (exists v, WithTLS load read append caFile ceFile keyFile = tlsOption (Some v) None) \/
  (exists e, WithTLS load read append caFile ceFile keyFile = tlsOption None (Some e)).
Proof.
  unfold WithTLS.
  destruct (load ceFile keyFile) as [ce | e]; [| right; eauto].
  destruct (read caFile) as [ca | e]; [| right; eauto].
  destruct (append NewCertPool ca) as [pool ok].
  destruct ok; cbn; [left | right]; eauto.
Qed.

Lemma WithTLS_tlsExclusive load read append caFile ceFile keyFile :
  tlsExclusive (WithTLS load read append caFile ceFile keyFile) = true.
Proof.
  destruct (WithTLS_outcome load read append caFile ceFile keyFile)
    as [[v ->] | [e ->]]; reflexivity.
Qed.

(** C1.  What the code does with a transport-security option whose
    construction failed: [WithTLS] returns the option with the error and a
    nil context, applying it stores both, and [Validate], which reports
    the error only next to a non-nil context, returns nil.  The error
    stays in the configuration, unreported. *)
Theorem Validate_ignores_failed_WithTLS
  (load : string -> string -> Certificate + error)
  (read : string -> string + error)
  (append : CertPool -> string -> CertPool * bool)
  (caFile ceFile keyFile : string) (cause : error) (c : Config) :
  constructionError (WithTLS load read append caFile ceFile keyFile) = Some cause ->
  let c' := applyToConfig (WithTLS load read append caFile ceFile keyFile) c in
  TLS c' = None /\
  tlsErr c' = Some cause /\
  snd (Validate c') = None /\
  tlsErr (fst (Validate c')) = Some cause.
Proof.
  intros Hfail c'. subst c'.
  destruct (WithTLS_outcome load read append caFile ceFile keyFile)
    as [[v Hv] | [e He]].
  - rewrite Hv in Hfail. discriminate.
  - rewrite He in Hfail |- *. cbn in Hfail. injection Hfail as ->.
    rewrite Validate_unfold. cbn [fst snd].
    destruct (setDefaultZeroValues_TLS (applyToConfig (tlsOption None (Some cause)) c))
      as [_ Herr].
    rewrite Herr. cbn. repeat split.
Qed.

Lemma Validate_ignores_failed_WithTLS_witness :
  constructionError
    (WithTLS missingKeyPair missingFile rejectPEM "ca.pem" "cert.pem" "key.pem") =
    Some (errors_New "open cert.pem: no such file or directory") /\
  snd (Validate
         (applyToConfig
            (WithTLS missingKeyPair missingFile rejectPEM "ca.pem" "cert.pem" "key.pem")
            DefaultConfig)) = None.
Proof.
  split; [reflexivity |].
  apply (Validate_ignores_failed_WithTLS missingKeyPair missingFile rejectPEM
           "ca.pem" "cert.pem" "key.pem"
           (errors_New "open cert.pem: no such file or directory") DefaultConfig).
  reflexivity.
Defined.

(** ** Override *)

Lemma Override_fields (c p : Config) :
  Override c p =
  mkConfig (if String.eqb (Host p) "" then Host c else Host p)
           (if Port p =? 0 then Port c else Port p)
           (if IdleTimeout p =? 0 then IdleTimeout c else IdleTimeout p)
           (if ReadTimeout p =? 0 then ReadTimeout c else ReadTimeout p)
           (if WriteTimeout p =? 0 then WriteTimeout c else WriteTimeout p)
           (if ShutdownTimeout p =? 0 then ShutdownTimeout c else ShutdownTimeout p)
           (TLS c) (tlsErr c).
Proof.
  destruct c as [h q i r w s t e], p as [h' q' i' r' w' s' t' e'].
  unfold Override. cbn.
  destruct (String.eqb h' ""), (q' =? 0), (i' =? 0), (r' =? 0), (w' =? 0), (s' =? 0);
    reflexivity.
Qed.

Lemma Plain_Override_fields (c p : Plain.Config) :
  Plain.Override c p =
  Plain.mkConfig
    (if String.eqb (Plain.Host p) "" then Plain.Host c else Plain.Host p)
    (if Plain.Port p =? 0 then Plain.Port c else Plain.Port p)
    (if Plain.IdleTimeout p =? 0 then Plain.IdleTimeout c else Plain.IdleTimeout p)
    (if Plain.ReadTimeout p =? 0 then Plain.ReadTimeout c else Plain.ReadTimeout p)
    (if Plain.WriteTimeout p =? 0 then Plain.WriteTimeout c else Plain.WriteTimeout p)
    (if Plain.ShutdownTimeout p =? 0
     then Plain.ShutdownTimeout c else Plain.ShutdownTimeout p).
Proof.
  destruct c as [h q i r w s], p as [h' q' i' r' w' s'].
  unfold Plain.Override. cbn.
  destruct (String.eqb h' ""), (q' =? 0), (i' =? 0), (r' =? 0), (w' =? 0), (s' =? 0);
    reflexivity.
Qed.

Lemma Override_keeps_fields (c p : Config) :
  TLS (Override c p) = TLS c /\ tlsErr (Override c p) = tlsErr c.
Proof.
  rewrite Override_fields. split; reflexivity.
Qed.

Lemma dropTLS_Override (c p : Config) :
  dropTLS (Override c p) = Plain.Override (dropTLS c) (dropTLS p).
Proof.
  rewrite Override_fields, Plain_Override_fields. reflexivity.
Qed.

Lemma patchedField_string (target patch : string) :
  patchedField "" target patch (if String.eqb patch "" then target else patch).
Proof.
  unfold patchedField. destruct (String.eqb_spec patch ""); split; intros;
    congruence.
Qed.

Lemma patchedField_Z (target patch : Z) :
  patchedField 0 target patch (if patch =? 0 then target else patch).
Proof.
  unfold patchedField. destruct (Z.eqb_spec patch 0); split; intros; congruence.
Qed.

(** C5.  [Override c p] takes each of the six fields from [p] exactly when
    [p]'s value is not the zero value of its type (the empty string, 0)
    and keeps [c]'s value otherwise; applying the same patch a second time
    changes nothing.  Both files agree. *)
Theorem Override_sparse_patch_idempotent :
  (forall c p : Config,
     patchedField "" (Host c) (Host p) (Host (Override c p)) /\
     patchedField 0 (Port c) (Port p) (Port (Override c p)) /\
     patchedField 0 (IdleTimeout c) (IdleTimeout p) (IdleTimeout (Override c p)) /\
     patchedField 0 (ReadTimeout c) (ReadTimeout p) (ReadTimeout (Override c p)) /\
     patchedField 0 (WriteTimeout c) (WriteTimeout p) (WriteTimeout (Override c p)) /\
     patchedField 0 (ShutdownTimeout c) (ShutdownTimeout p)
                  (ShutdownTimeout (Override c p)) /\
     Override (Override c p) p = Override c p) /\
  (forall c p : Plain.Config,
     patchedField "" (Plain.Host c) (Plain.Host p) (Plain.Host (Plain.Override c p)) /\
     patchedField 0 (Plain.Port c) (Plain.Port p) (Plain.Port (Plain.Override c p)) /\
     patchedField 0 (Plain.IdleTimeout c) (Plain.IdleTimeout p)
                  (Plain.IdleTimeout (Plain.Override c p)) /\
     patchedField 0 (Plain.ReadTimeout c) (Plain.ReadTimeout p)
                  (Plain.ReadTimeout (Plain.Override c p)) /\
     patchedField 0 (Plain.WriteTimeout c) (Plain.WriteTimeout p)
                  (Plain.WriteTimeout (Plain.Override c p)) /\
     patchedField 0 (Plain.ShutdownTimeout c) (Plain.ShutdownTimeout p)
                  (Plain.ShutdownTimeout (Plain.Override c p)) /\
     Plain.Override (Plain.Override c p) p = Plain.Override c p).
Proof.
  split; intros c p.
  - rewrite (Override_fields (Override c p) p), (Override_fields c p). cbn.
    repeat split;
      try apply patchedField_string; try apply patchedField_Z.
    destruct (String.eqb (Host p) ""), (Port p =? 0), (IdleTimeout p =? 0),
      (ReadTimeout p =? 0), (WriteTimeout p =? 0), (ShutdownTimeout p =? 0);
      reflexivity.
  - rewrite (Plain_Override_fields (Plain.Override c p) p), (Plain_Override_fields c p).
    cbn.
    repeat split;
      try apply patchedField_string; try apply patchedField_Z.
    destruct (String.eqb (Plain.Host p) ""), (Plain.Port p =? 0),
      (Plain.IdleTimeout p =? 0), (Plain.ReadTimeout p =? 0),
      (Plain.WriteTimeout p =? 0), (Plain.ShutdownTimeout p =? 0);
      reflexivity.
Qed.

(** C10.  [Override] leaves the transport-security context and the
    deferred construction error of the target as they were, whatever the
    patch holds; the two transport-security fields of the patch play no
    part in the result. *)
Theorem Override_keeps_transport_security
  (c p : Config) (v : option tlsConfig) (e : option error) :
  TLS (Override c p) = TLS c /\
  tlsErr (Override c p) = tlsErr c /\
  Override c (set_TLS p v e) = Override c p.
Proof.
  rewrite !Override_fields. repeat split.
Qed.

(** ** Scalar setters *)

(** C7.  Applying a scalar setter built from [v] puts [v] in its field and
    touches no other field, for every [v]: the zero value is written like
    any other (second part), whereas a whole-configuration option built
    from the zero configuration changes nothing (third part).  Both files
    agree. *)
Theorem scalar_setters_overwrite_unconditionally :
  (forall (c : Config) (s : string) (v : Z),
     applyToConfig (WithHost s) c =
       mkConfig s (Port c) (IdleTimeout c) (ReadTimeout c) (WriteTimeout c)
                (ShutdownTimeout c) (TLS c) (tlsErr c) /\
     applyToConfig (WithPort v) c =
       mkConfig (Host c) v (IdleTimeout c) (ReadTimeout c) (WriteTimeout c)
                (ShutdownTimeout c) (TLS c) (tlsErr c) /\
     applyToConfig (WithIdleTimeout v) c =
       mkConfig (Host c) (Port c) v (ReadTimeout c) (WriteTimeout c)
                (ShutdownTimeout c) (TLS c) (tlsErr c) /\
     applyToConfig (WithReadTimeout v) c =
       mkConfig (Host c) (Port c) (IdleTimeout c) v (WriteTimeout c)
                (ShutdownTimeout c) (TLS c) (tlsErr c) /\
     applyToConfig (WithWriteTimeout v) c =
       mkConfig (Host c) (Port c) (IdleTimeout c) (ReadTimeout c) v
                (ShutdownTimeout c) (TLS c) (tlsErr c) /\
     applyToConfig (WithShutdownTimeout v) c =
       mkConfig (Host c) (Port c) (IdleTimeout c) (ReadTimeout c) (WriteTimeout c)
                v (TLS c) (tlsErr c)) /\
  (forall c : Config,
     Host (applyToConfig (WithHost "") c) = "" /\
     Port (applyToConfig (WithPort 0) c) = 0 /\
     IdleTimeout (applyToConfig (WithIdleTimeout 0) c) = 0 /\
     ReadTimeout (applyToConfig (WithReadTimeout 0) c) = 0 /\
     WriteTimeout (applyToConfig (WithWriteTimeout 0) c) = 0 /\
     ShutdownTimeout (applyToConfig (WithShutdownTimeout 0) c) = 0) /\
  (forall c : Config, applyToConfig (WithConfig zeroConfig) c = c) /\
  (forall (c : Plain.Config) (s : string) (v : Z),
     Plain.applyToConfig (Plain.WithHost s) c =
       Plain.mkConfig s (Plain.Port c) (Plain.IdleTimeout c) (Plain.ReadTimeout c)
                      (Plain.WriteTimeout c) (Plain.ShutdownTimeout c) /\
     Plain.applyToConfig (Plain.WithPort v) c =
       Plain.mkConfig (Plain.Host c) v (Plain.IdleTimeout c) (Plain.ReadTimeout c)
                      (Plain.WriteTimeout c) (Plain.ShutdownTimeout c) /\
     Plain.applyToConfig (Plain.WithIdleTimeout v) c =
       Plain.mkConfig (Plain.Host c) (Plain.Port c) v (Plain.ReadTimeout c)
                      (Plain.WriteTimeout c) (Plain.ShutdownTimeout c) /\
     Plain.applyToConfig (Plain.WithReadTimeout v) c =
       Plain.mkConfig (Plain.Host c) (Plain.Port c) (Plain.IdleTimeout c) v
                      (Plain.WriteTimeout c) (Plain.ShutdownTimeout c) /\
     Plain.applyToConfig (Plain.WithWriteTimeout v) c =
       Plain.mkConfig (Plain.Host c) (Plain.Port c) (Plain.IdleTimeout c)
                      (Plain.ReadTimeout c) v (Plain.ShutdownTimeout c) /\
     Plain.applyToConfig (Plain.WithShutdownTimeout v) c =
       Plain.mkConfig (Plain.Host c) (Plain.Port c) (Plain.IdleTimeout c)
                      (Plain.ReadTimeout c) (Plain.WriteTimeout c) v) /\
  (forall c : Plain.Config,
     Plain.Host (Plain.applyToConfig (Plain.WithHost "") c) = "" /\
     Plain.Port (Plain.applyToConfig (Plain.WithPort 0) c) = 0 /\
     Plain.IdleTimeout (Plain.applyToConfig (Plain.WithIdleTimeout 0) c) = 0 /\
     Plain.ReadTimeout (Plain.applyToConfig (Plain.WithReadTimeout 0) c) = 0 /\
     Plain.WriteTimeout (Plain.applyToConfig (Plain.WithWriteTimeout 0) c) = 0 /\
     Plain.ShutdownTimeout (Plain.applyToConfig (Plain.WithShutdownTimeout 0) c) = 0) /\
  (forall c : Plain.Config,
     Plain.applyToConfig (Plain.WithConfig Plain.zeroConfig) c = c).
Proof.
  repeat apply conj; intros; repeat apply conj; try reflexivity;
    destruct c; reflexivity.
Qed.

(** ** Composite options *)

(** Induction on an option whose composite case may use the property for
    every element of the list. *)
Lemma ConfigOption_nested_ind (P : ConfigOption -> Prop) :
  (forall o, isLeaf o = true -> P o) ->
  (forall l, Forall P l -> P (configOptions l)) ->
  forall o, P o.
Proof.
  intros Hleaf Hnode. fix IH 1.
  intros [v | v | v | v | v | v | v e | v | l]; try (apply Hleaf; reflexivity).
  apply Hnode. induction l as [| o l IHl]; constructor.
  - apply IH.
  - exact IHl.
Qed.

Lemma applyToConfig_composite (l : list ConfigOption) (c : Config) :
  applyToConfig (configOptions l) c = applyOptions l c.
Proof.
  revert c. induction l as [| o l IHl]; intros c; [reflexivity |].
  cbn. apply IHl.
Qed.

Lemma applyOptions_in_order (l : list ConfigOption) (c : Config) :
  applyOptions l c = applyInOrder l c.
Proof.
  revert c. induction l as [| o l IHl]; intros c; [reflexivity |].
  cbn. apply IHl.
Qed.

Lemma applyInOrder_app (l1 l2 : list ConfigOption) (c : Config) :
  applyInOrder (l1 ++ l2)%list c = applyInOrder l2 (applyInOrder l1 c).
Proof.
  unfold applyInOrder. apply fold_left_app.
Qed.

Lemma flatten_composite (l : list ConfigOption) :
  flatten (configOptions l) = flattenAll l.
Proof.
  induction l as [| o l IHl]; [reflexivity |].
  cbn in *. rewrite IHl. reflexivity.
Qed.

Lemma applyToConfig_flatten (o : ConfigOption) :
  forall c, applyToConfig o c = applyInOrder (flatten o) c.
Proof.
  induction o as [o Hleaf | l IHl] using ConfigOption_nested_ind.
  - intros c. destruct o; try discriminate; reflexivity.
  - intros c. rewrite applyToConfig_composite, applyOptions_in_order, flatten_composite.
    revert c. induction IHl as [| o l Ho _ IH]; intros c; [reflexivity |].
    change (flattenAll (o :: l)) with (flatten o ++ flattenAll l)%list.
    rewrite applyInOrder_app, <- IH, <- Ho. reflexivity.
Qed.

Lemma flatten_leaves (o : ConfigOption) :
  forallb isLeaf (flatten o) = true.
Proof.
  induction o as [o Hleaf | l IHl] using ConfigOption_nested_ind.
  - destruct o; try discriminate; reflexivity.
  - rewrite flatten_composite.
    induction IHl as [| o l Ho _ IH]; [reflexivity |].
    change (flattenAll (o :: l)) with (flatten o ++ flattenAll l)%list.
    rewrite forallb_app, Ho, IH. reflexivity.
Qed.

Lemma Plain_ConfigOption_nested_ind (P : Plain.ConfigOption -> Prop) :
  (forall o, Plain.isLeaf o = true -> P o) ->
  (forall l, Forall P l -> P (Plain.configOptions l)) ->
  forall o, P o.
Proof.
  intros Hleaf Hnode. fix IH 1.
  intros [v | v | v | v | v | v | v | l]; try (apply Hleaf; reflexivity).
  apply Hnode. induction l as [| o l IHl]; constructor.
  - apply IH.
  - exact IHl.
Qed.

Lemma Plain_applyToConfig_composite (l : list Plain.ConfigOption) (c : Plain.Config) :
  Plain.applyToConfig (Plain.configOptions l) c = Plain.applyOptions l c.
Proof.
  revert c. induction l as [| o l IHl]; intros c; [reflexivity |].
  cbn. apply IHl.
Qed.

Lemma Plain_applyOptions_in_order (l : list Plain.ConfigOption) (c : Plain.Config) :
  Plain.applyOptions l c = Plain_applyInOrder l c.
Proof.
  revert c. induction l as [| o l IHl]; intros c; [reflexivity |].
  cbn. apply IHl.
Qed.

Lemma Plain_applyInOrder_app (l1 l2 : list Plain.ConfigOption) (c : Plain.Config) :
  Plain_applyInOrder (l1 ++ l2)%list c = Plain_applyInOrder l2 (Plain_applyInOrder l1 c).
Proof.
  unfold Plain_applyInOrder. apply fold_left_app.
Qed.

Lemma Plain_flatten_composite (l : list Plain.ConfigOption) :
  Plain.flatten (Plain.configOptions l) = Plain.flattenAll l.
Proof.
  induction l as [| o l IHl]; [reflexivity |].
  cbn in *. rewrite IHl. reflexivity.
Qed.

Lemma Plain_applyToConfig_flatten (o : Plain.ConfigOption) :
  forall c, Plain.applyToConfig o c = Plain_applyInOrder (Plain.flatten o) c.
Proof.
  induction o as [o Hleaf | l IHl] using Plain_ConfigOption_nested_ind.
  - intros c. destruct o; try discriminate; reflexivity.
  - intros c.
    rewrite Plain_applyToConfig_composite, Plain_applyOptions_in_order,
      Plain_flatten_composite.
    revert c. induction IHl as [| o l Ho _ IH]; intros c; [reflexivity |].
    change (Plain.flattenAll (o :: l))
      with (Plain.flatten o ++ Plain.flattenAll l)%list.
    rewrite Plain_applyInOrder_app, <- IH, <- Ho. reflexivity.
Qed.

Lemma Plain_flatten_leaves (o : Plain.ConfigOption) :
  forallb Plain.isLeaf (Plain.flatten o) = true.
Proof.
  induction o as [o Hleaf | l IHl] using Plain_ConfigOption_nested_ind.
  - destruct o; try discriminate; reflexivity.
  - rewrite Plain_flatten_composite.
    induction IHl as [| o l Ho _ IH]; [reflexivity |].
    change (Plain.flattenAll (o :: l))
      with (Plain.flatten o ++ Plain.flattenAll l)%list.
    rewrite forallb_app, Ho, IH. reflexivity.
Qed.

Example flatten_nested :
  flatten (WithConfigOptions
             [WithPort 1;
              WithConfigOptions [WithHost "a"; WithConfigOptions [WithPort 2]];
              WithHost "b"]) =
  [WithPort 1; WithHost "a"; WithPort 2; WithHost "b"].
Proof. reflexivity. Qed.

(** C6.  Applying the composite built from a list [l] is applying the
    elements of [l] one after the other in the order of the list (first
    part); it is also applying, in order, the leaves that remain when
    every nested composite is replaced depth-first by its elements, and
    these are no composites (second part); and the option supplied last
    is applied to what the earlier ones produced, so that what it writes
    stays (third part).  Both files agree. *)
Theorem composite_applies_in_order :
  (forall (l : list ConfigOption) (c : Config),
     applyToConfig (WithConfigOptions l) c = applyInOrder l c) /\
  (forall (l : list ConfigOption) (c : Config),
     applyToConfig (WithConfigOptions l) c = applyInOrder (flattenAll l) c /\
     forallb isLeaf (flattenAll l) = true) /\
  (forall (l : list ConfigOption) (o : ConfigOption) (c : Config),
     applyToConfig (WithConfigOptions (l ++ [o])) c =
     applyToConfig o (applyToConfig (WithConfigOptions l) c)) /\
  (forall (l : list Plain.ConfigOption) (c : Plain.Config),
     Plain.applyToConfig (Plain.WithConfigOptions l) c = Plain_applyInOrder l c) /\
  (forall (l : list Plain.ConfigOption) (c : Plain.Config),
     Plain.applyToConfig (Plain.WithConfigOptions l) c =
       Plain_applyInOrder (Plain.flattenAll l) c /\
     forallb Plain.isLeaf (Plain.flattenAll l) = true) /\
  (forall (l : list Plain.ConfigOption) (o : Plain.ConfigOption) (c : Plain.Config),
     Plain.applyToConfig (Plain.WithConfigOptions (l ++ [o])) c =
     Plain.applyToConfig o (Plain.applyToConfig (Plain.WithConfigOptions l) c)).
Proof.
  unfold WithConfigOptions, Plain.WithConfigOptions.
  repeat apply conj.
  - intros l c. rewrite applyToConfig_composite. apply applyOptions_in_order.
  - intros l c. split.
    + rewrite applyToConfig_flatten, flatten_composite. reflexivity.
    + rewrite <- flatten_composite. apply flatten_leaves.
  - intros l o c.
    rewrite !applyToConfig_composite, !applyOptions_in_order, applyInOrder_app.
    reflexivity.
  - intros l c. rewrite Plain_applyToConfig_composite.
    apply Plain_applyOptions_in_order.
  - intros l c. split.
    + rewrite Plain_applyToConfig_flatten, Plain_flatten_composite. reflexivity.
    + rewrite <- Plain_flatten_composite. apply Plain_flatten_leaves.
  - intros l o c.
    rewrite !Plain_applyToConfig_composite, !Plain_applyOptions_in_order,
      Plain_applyInOrder_app.
    reflexivity.
Qed.

(** ** What the exported constructors can reach *)

Lemma applyToConfig_exclusive (o : ConfigOption) :
  forall c, tlsExclusive o = true -> exclusiveConfig c = true ->
            exclusiveConfig (applyToConfig o c) = true.
Proof.
  induction o as [o Hleaf | l IHl] using ConfigOption_nested_ind.
  - intros c Ho Hc. destruct o as [v | v | v | v | v | v | v e | v | l];
      try discriminate; try exact Hc.
    + destruct v, e; try discriminate; reflexivity.
    + unfold exclusiveConfig in *. cbn [applyToConfig].
      destruct (Override_keeps_fields c v) as [-> ->]. exact Hc.
  - intros c Hl Hc. rewrite applyToConfig_composite.
    revert c Hl Hc. induction IHl as [| o l Ho _ IH]; intros c Hl Hc; [exact Hc |].
    cbn in Hl. apply andb_prop in Hl as [Ho' Hl'].
    cbn [applyOptions]. apply IH; [exact Hl' |]. apply Ho; assumption.
Qed.

Lemma applyOptions_exclusive (opts : list ConfigOption) (c : Config) :
  forallb tlsExclusive opts = true -> exclusiveConfig c = true ->
  exclusiveConfig (applyOptions opts c) = true.
Proof.
  revert c. induction opts as [| o opts IH]; intros c Hall Hc; [exact Hc |].
  cbn in Hall. apply andb_prop in Hall as [Ho Hall].
  cbn [applyOptions]. apply IH; [exact Hall |].
  apply applyToConfig_exclusive; assumption.
Qed.

(** Every option built by an exported constructor from options built by
    exported constructors is [tlsExclusive]: the scalar setters and
    [WithConfig] hold no transport-security option, [WithTLS] is
    [WithTLS_tlsExclusive], and [WithConfigOptions] passes it on. *)
Lemma WithConfigOptions_tlsExclusive (l : list ConfigOption) :
  tlsExclusive (WithConfigOptions l) = forallb tlsExclusive l.
Proof.
  induction l as [| o l IHl]; [reflexivity |].
  cbn in *. rewrite IHl. reflexivity.
Qed.

(** For such options, the configuration that [Serve] composes passes
    [Validate]: no error at all can come out. *)
Lemma Validate_exclusive_options_nil (opts : list ConfigOption) :
  forallb tlsExclusive opts = true ->
  snd (Validate (applyOptions opts zeroConfig)) = None.
Proof.
  intros Hall. rewrite Validate_unfold. cbn [snd].
  pose proof (applyOptions_exclusive opts zeroConfig Hall eq_refl) as Hex.
  unfold exclusiveConfig in Hex.
  destruct (TLS (applyOptions opts zeroConfig)),
    (tlsErr (applyOptions opts zeroConfig)); try reflexivity; discriminate.
Qed.

(** ** Serve *)

(** When validation succeeds, the first thing [Serve] does to the outside
    is to install the signal interception. *)
Lemma Serve_valid_first_step
  (Context Handler Group CancelFunc : Type)
  (ctx : Context) (h : Handler) (opts : list ConfigOption) :
  snd (Validate (applyOptions opts zeroConfig)) = None ->
  firstStepOf Context Handler Group CancelFunc
    (Serve Context Handler Group CancelFunc ctx h opts) =
  performs Context Handler Group CancelFunc
    (NotifyContext Context Handler Group CancelFunc ctx [SIGINT; SIGTERM]).
Proof.
  intros Hok. unfold Serve. cbv zeta.
  destruct (Validate (applyOptions opts zeroConfig)) as [cfg err].
  cbn in Hok. subst err. reflexivity.
Qed.

(** C9.  When the configuration composed from the options fails
    validation, [Serve] is the computation that returns the validation
    error and does nothing else: it has no effect at all, so no signal
    interception is installed, no error group is made, no task is
    launched and nothing is waited for. *)
Theorem Serve_invalid_returns_without_effect
  (Context Handler Group CancelFunc : Type)
  (ctx : Context) (h : Handler) (opts : list ConfigOption) (err : error) :
  snd (Validate (applyOptions opts zeroConfig)) = Some err ->
  Serve Context Handler Group CancelFunc ctx h opts = Ret (Some err) /\
  firstStepOf Context Handler Group CancelFunc
    (Serve Context Handler Group CancelFunc ctx h opts) =
  returns Context Handler Group CancelFunc (Some err).
Proof.
  intros Hfail. unfold Serve. cbv zeta.
  destruct (Validate (applyOptions opts zeroConfig)) as [cfg e].
  cbn in Hfail. subst e. split; reflexivity.
Qed.

Lemma Serve_invalid_returns_without_effect_witness :
  snd (Validate
         (applyOptions
            [tlsOption
               (Some (mkTLSConfig RequireAndVerifyClientCert [] (certPool [])
                                  VersionTLS12 []))
               (Some (errors_New "unable to append certs from PEM"))]
            zeroConfig)) =
    Some (errTLS (errors_New "unable to append certs from PEM")) /\
  Serve unit unit unit unit tt tt
    [tlsOption
       (Some (mkTLSConfig RequireAndVerifyClientCert [] (certPool [])
                          VersionTLS12 []))
       (Some (errors_New "unable to append certs from PEM"))] =
    Ret (Some (errTLS (errors_New "unable to append certs from PEM"))).
Proof.
  split; [reflexivity |].
  apply (Serve_invalid_returns_without_effect unit unit unit unit tt tt
           [tlsOption
              (Some (mkTLSConfig RequireAndVerifyClientCert [] (certPool [])
                                 VersionTLS12 []))
              (Some (errors_New "unable to append certs from PEM"))]
           (errTLS (errors_New "unable to append certs from PEM"))).
  reflexivity.
Defined.

(** * Further properties of the configuration *)

Lemma Validate_fields_positive (c : Config) :
  0 < Port (fst (Validate c)) /\
  0 < IdleTimeout (fst (Validate c)) /\
  0 < ReadTimeout (fst (Validate c)) /\
  0 < WriteTimeout (fst (Validate c)) /\
  0 < ShutdownTimeout (fst (Validate c)).
Proof.
  rewrite Validate_unfold. cbn [fst]. apply setDefaultZeroValues_positive.
Qed.

(** X1.  Validating a configuration that [Validate] has already left
    changes nothing and gives the same verdict, in both files. *)
Theorem Validate_idempotent :
  (forall c : Config,
     Validate (fst (Validate c)) = Validate c) /\
  (forall c : Plain.Config,
     Plain.Validate (fst (Plain.Validate c)) = Plain.Validate c).
Proof.
  split; intros c.
  - rewrite !Validate_unfold. cbn [fst].
    rewrite setDefaultZeroValues_idempotent.
    destruct (setDefaultZeroValues_TLS c) as [-> ->]. reflexivity.
  - rewrite !Plain_Validate_unfold. cbn [fst]. f_equal.
    destruct (Plain_setDefaultZeroValues_positive c) as (Hp & Hi & Hr & Hw & Hs).
    apply Z.leb_gt in Hp, Hi, Hr, Hw, Hs.
    remember (Plain.setDefaultZeroValues c) as d eqn:Hd. clear Hd.
    unfold Plain.setDefaultZeroValues. rewrite Hp. cbv zeta.
    rewrite Hi. cbv zeta. rewrite Hr. cbv zeta. rewrite Hw. cbv zeta.
    rewrite Hs. reflexivity.
Qed.

(** X2.  A configuration whose port and four timeouts are strictly
    positive comes out of [Validate] exactly as it went in: the defaults
    never replace a value the caller has set to something positive. *)
Theorem Validate_keeps_positive_fields (c : Config) :
  0 < Port c -> 0 < IdleTimeout c -> 0 < ReadTimeout c ->
  0 < WriteTimeout c -> 0 < ShutdownTimeout c ->
  fst (Validate c) = c /\
  fst (Plain.Validate (dropTLS c)) = dropTLS c.
Proof.
  intros Hp Hi Hr Hw Hs.
  rewrite Validate_unfold, Plain_Validate_unfold. cbn [fst].
  rewrite <- dropTLS_setDefaultZeroValues.
  assert (Hc : setDefaultZeroValues c = c).
  { apply Z.leb_gt in Hp, Hi, Hr, Hw, Hs.
    unfold setDefaultZeroValues. rewrite Hp. cbv zeta.
    rewrite Hi. cbv zeta. rewrite Hr. cbv zeta. rewrite Hw. cbv zeta.
    rewrite Hs. reflexivity. }
  rewrite Hc. split; reflexivity.
Qed.

Lemma Validate_keeps_positive_fields_witness :
  fst (Validate (mkConfig "example.org" 443 1 2 3 4 None None)) =
  mkConfig "example.org" 443 1 2 3 4 None None.
Proof.
  apply (Validate_keeps_positive_fields
           (mkConfig "example.org" 443 1 2 3 4 None None)); reflexivity.
Defined.

(** X3.  Every non-positive port or timeout, negative ones included, is
    replaced by its default, and a strictly positive one is kept; the
    host and the transport-security fields are never touched. *)
Theorem setDefaultZeroValues_fields (c : Config) :
  setDefaultZeroValues c =
  mkConfig (Host c)
           (if 0 <? Port c then Port c else 8080)
           (if 0 <? IdleTimeout c then IdleTimeout c else 60 * Second)
           (if 0 <? ReadTimeout c then ReadTimeout c else 5 * Second)
           (if 0 <? WriteTimeout c then WriteTimeout c else 10 * Second)
           (if 0 <? ShutdownTimeout c then ShutdownTimeout c else 10 * Second)
           (TLS c) (tlsErr c).
Proof.
  destruct c as [h p i r w s t e].
  unfold setDefaultZeroValues. cbn.
  rewrite !(Z.ltb_antisym _ 0).
  destruct (p <=? 0); cbn; destruct (i <=? 0); cbn; destruct (r <=? 0); cbn;
    destruct (w <=? 0); cbn; destruct (s <=? 0); reflexivity.
Qed.

(** X4.  Two whole-configuration patches applied one after the other are
    one patch: overriding with [p] and then with [q] is overriding with
    [p] overridden by [q].  Both files. *)
Theorem Override_assoc :
  (forall c p q : Config,
     Override (Override c p) q = Override c (Override p q)) /\
  (forall c p q : Plain.Config,
     Plain.Override (Plain.Override c p) q = Plain.Override c (Plain.Override p q)).
Proof.
  split; intros c p q.
  - rewrite !Override_fields. cbn.
    destruct (String.eqb_spec (Host q) "") as [Hq | Hq];
      [| apply String.eqb_neq in Hq; rewrite Hq ];
      destruct (Z.eqb_spec (Port q) 0) as [Hq1 | Hq1];
      [| apply Z.eqb_neq in Hq1; rewrite Hq1 | | apply Z.eqb_neq in Hq1; rewrite Hq1 ];
      destruct (Z.eqb_spec (IdleTimeout q) 0) as [Hq2 | Hq2];
      try (apply Z.eqb_neq in Hq2; rewrite Hq2);
      destruct (Z.eqb_spec (ReadTimeout q) 0) as [Hq3 | Hq3];
      try (apply Z.eqb_neq in Hq3; rewrite Hq3);
      destruct (Z.eqb_spec (WriteTimeout q) 0) as [Hq4 | Hq4];
      try (apply Z.eqb_neq in Hq4; rewrite Hq4);
      destruct (Z.eqb_spec (ShutdownTimeout q) 0) as [Hq5 | Hq5];
      try (apply Z.eqb_neq in Hq5; rewrite Hq5);
      reflexivity.
  - rewrite !Plain_Override_fields. cbn.
    destruct (String.eqb_spec (Plain.Host q) "") as [Hq | Hq];
      [| apply String.eqb_neq in Hq; rewrite Hq ];
      destruct (Z.eqb_spec (Plain.Port q) 0) as [Hq1 | Hq1];
      [| apply Z.eqb_neq in Hq1; rewrite Hq1 | | apply Z.eqb_neq in Hq1; rewrite Hq1 ];
      destruct (Z.eqb_spec (Plain.IdleTimeout q) 0) as [Hq2 | Hq2];
      try (apply Z.eqb_neq in Hq2; rewrite Hq2);
      destruct (Z.eqb_spec (Plain.ReadTimeout q) 0) as [Hq3 | Hq3];
      try (apply Z.eqb_neq in Hq3; rewrite Hq3);
      destruct (Z.eqb_spec (Plain.WriteTimeout q) 0) as [Hq4 | Hq4];
      try (apply Z.eqb_neq in Hq4; rewrite Hq4);
      destruct (Z.eqb_spec (Plain.ShutdownTimeout q) 0) as [Hq5 | Hq5];
      try (apply Z.eqb_neq in Hq5; rewrite Hq5);
      reflexivity.
Qed.

(** ** Options built outside the package *)

Lemma exported_tlsExclusive load read append (o : ConfigOption) :
  exported load read append o -> tlsExclusive o = true.
Proof.
  induction o as [o Hleaf | l IHl] using ConfigOption_nested_ind; intros Hexp.
  - destruct o as [v | v | v | v | v | v | v e | v | l];
      try reflexivity; try discriminate.
    remember (tlsOption v e) as o eqn:Ho.
    destruct Hexp; try discriminate.
    apply WithTLS_tlsExclusive.
  - remember (configOptions l) as o eqn:Ho.
    destruct Hexp as [v | v | v | v | v | v | ca ce key | v | l' Hall];
      try discriminate.
    + apply WithTLS_tlsExclusive.
    + injection Ho as <-. rewrite WithConfigOptions_tlsExclusive.
      clear - IHl Hall.
      induction IHl as [| o l Ho _ IH]; [reflexivity |].
      inversion Hall as [| ? ? Hexp Hall']; subst.
      cbn. rewrite (Ho Hexp), (IH Hall'). reflexivity.
Qed.

(** X5.  A configuration composed from options that were built with the
    exported constructors, in any number, order and nesting and whatever
    the credential files hold, always passes [Validate]: nil is returned
    and the port and the four timeouts of the result are strictly
    positive. *)
Theorem exported_options_always_validate
  (load : string -> string -> Certificate + error)
  (read : string -> string + error)
  (append : CertPool -> string -> CertPool * bool)
  (opts : list ConfigOption) :
  Forall (exported load read append) opts ->
  snd (Validate (applyOptions opts zeroConfig)) = None /\
  0 < Port (fst (Validate (applyOptions opts zeroConfig))) /\
  0 < IdleTimeout (fst (Validate (applyOptions opts zeroConfig))) /\
  0 < ReadTimeout (fst (Validate (applyOptions opts zeroConfig))) /\
  0 < WriteTimeout (fst (Validate (applyOptions opts zeroConfig))) /\
  0 < ShutdownTimeout (fst (Validate (applyOptions opts zeroConfig))).
Proof.
  intros Hall. split.
  - apply Validate_exclusive_options_nil.
    induction Hall as [| o l Ho _ IH]; [reflexivity |].
    cbn. rewrite (exported_tlsExclusive load read append o Ho), IH. reflexivity.
  - rewrite Validate_unfold. cbn [fst]. apply setDefaultZeroValues_positive.
Qed.

Lemma exported_options_always_validate_witness :
  snd (Validate
         (applyOptions
            [WithPort (-5);
             WithTLS missingKeyPair missingFile rejectPEM "ca.pem" "cert.pem" "key.pem";
             WithConfigOptions [WithHost "localhost"; WithIdleTimeout 0]]
            zeroConfig)) = None.
Proof.
  apply (exported_options_always_validate missingKeyPair missingFile rejectPEM
           [WithPort (-5);
            WithTLS missingKeyPair missingFile rejectPEM "ca.pem" "cert.pem" "key.pem";
            WithConfigOptions [WithHost "localhost"; WithIdleTimeout 0]]).
  repeat constructor.
Defined.

(** X6.  Whatever the three library calls answer, the option [WithTLS]
    returns holds a context or an error, never both and never neither;
    the error of the key pair comes before that of the CA file, which
    comes before a PEM text that does not parse; and a context, when there
    is one, demands and verifies a client certificate, accepts nothing
    below TLS 1.2, offers h2 then http/1.1 and carries the one certificate
    that was loaded. *)
Theorem WithTLS_result
  (load : string -> string -> Certificate + error)
  (read : string -> string + error)
  (append : CertPool -> string -> CertPool * bool)
  (caFile ceFile keyFile : string) :
  WithTLS load read append caFile ceFile keyFile =
  match load ceFile keyFile, read caFile with
  | inr e, _ => tlsOption None (Some e)
  | inl _, inr e => tlsOption None (Some e)
  | inl ce, inl ca =>
      if snd (append (certPool []) ca)
      then tlsOption
             (Some (mkTLSConfig RequireAndVerifyClientCert [ce]
                                (fst (append (certPool []) ca)) 771 ["h2"; "http/1.1"]))
             None
      else tlsOption None (Some (errorString "unable to append certs from PEM"))
  end /\
  (exists v e, WithTLS load read append caFile ceFile keyFile = tlsOption v e /\
               (v = None <-> e <> None)).
Proof.
  unfold WithTLS, NewCertPool.
  destruct (load ceFile keyFile) as [ce | e].
  - destruct (read caFile) as [ca | e].
    + destruct (append (certPool []) ca) as [pool ok]. cbn [fst snd].
      destruct ok; cbn; (split; [reflexivity |]); do 2 eexists;
        (split; [reflexivity |]); split; intros H; congruence.
    + split; [reflexivity |]. do 2 eexists. split; [reflexivity |].
      split; intros H; congruence.
  - split; [reflexivity |]. do 2 eexists. split; [reflexivity |].
    split; intros H; congruence.
Qed.

(** * Further properties of the lifecycle *)

Lemma error_eqb_eq (a b : error) : error_eqb a b = true <-> a = b.
Proof.
  revert b. induction a as [s | m a IH]; intros [t | n b]; cbn;
    try (split; [discriminate | discriminate]).
  - rewrite String.eqb_eq. split; [intros -> | intros [= ->]]; reflexivity.
  - rewrite andb_true_iff, String.eqb_eq, IH.
    split; [intros [-> ->] | intros [= -> ->]]; auto.
Qed.

Lemma errors_Is_chain (e target : error) :
  errors_Is e target = true <-> In target (chain e).
Proof.
  induction e as [s | m e IH]; cbn [errors_Is chain In].
  - rewrite orb_false_r, error_eqb_eq. intuition congruence.
  - rewrite orb_true_iff, error_eqb_eq, IH. intuition congruence.
Qed.

(** ** Runs *)

Lemma observe_bind {E : Type -> Type} {R U : Type} (t : itree E R) (k : R -> itree E U) :
  observe (ITree.bind t k) =
  match observe t with
  | RetF r => observe (k r)
  | TauF t' => TauF (ITree.bind t' k)
  | VisF e h => VisF e (fun x => ITree.bind (h x) k)
  end.
Proof.
  change (observe (ITree.bind t k))
    with (observe (match observe t with
                   | RetF r => k r
                   | TauF t' => Tau (ITree.bind t' k)
                   | VisF e h => Vis e (fun x => ITree.bind (h x) k)
                   end)).
  destruct (observe t); reflexivity.
Qed.

(** More fuel does not change a run that has come to its end. *)
Lemma run_mono {E : Type -> Type} {R : Type} (answer : forall X : Type, E X -> X)
  (n m : nat) (t : itree E R) trace r :
  run answer n t = (trace, Some r) -> run answer (n + m) t = (trace, Some r).
Proof.
  revert t trace. induction n as [| n IH]; intros t trace; [discriminate |].
  cbn [run Nat.add]. destruct (observe t) as [x | t' | X e k].
  - auto.
  - apply IH.
  - destruct (run answer n (k (answer X e))) as [tr' r'] eqn:Hk.
    intros [= <- ->]. rewrite (IH _ _ Hk). reflexivity.
Qed.

Lemma run_bind {E : Type -> Type} {R U : Type} (answer : forall X : Type, E X -> X)
  (n m : nat) (t : itree E R) (k : R -> itree E U) tr1 x tr2 r :
  run answer n t = (tr1, Some x) ->
  run answer m (k x) = (tr2, Some r) ->
  run answer (n + m - 1) (ITree.bind t k) = ((tr1 ++ tr2)%list, Some r).
Proof.
  intros Ht Hk. destruct m as [| m]; [discriminate |].
  revert t tr1 Ht. induction n as [| n IH]; intros t tr1 Ht; [discriminate |].
  replace (S n + S m - 1)%nat with (S (n + m)) by lia.
  cbn [run] in Ht |- *. rewrite observe_bind.
  destruct (observe t) as [x0 | t' | X e h].
  - injection Ht as <- <-.
    change (run answer (S (n + m)) (k x0) = (tr2, Some r)).
    replace (S (n + m)) with (S m + n)%nat by lia.
    apply run_mono. exact Hk.
  - replace (n + m)%nat with (n + S m - 1)%nat by lia. apply IH. exact Ht.
  - destruct (run answer n (h (answer X e))) as [tr' r'] eqn:Hh.
    injection Ht as <- ->.
    replace (n + m)%nat with (n + S m - 1)%nat by lia.
    rewrite (IH _ _ Hh). reflexivity.
Qed.

Lemma finishes_ret {E : Type -> Type} {R : Type} (answer : forall X : Type, E X -> X)
  (r : R) (Q : nat -> list {X : Type & E X} -> R -> Prop) :
  Q 1%nat [] r -> finishes answer (Ret r) Q.
Proof.
  intros HQ. exists 1%nat, [], r. split; [reflexivity | exact HQ].
Qed.

Lemma finishes_trigger {E : Type -> Type} {X : Type} (answer : forall X : Type, E X -> X)
  (e : E X) (Q : nat -> list {X : Type & E X} -> X -> Prop) :
  Q 2%nat [call e] (answer X e) -> finishes answer (ITree.trigger e) Q.
Proof.
  intros HQ. exists 2%nat, [call e], (answer X e). split; [reflexivity | exact HQ].
Qed.

Lemma finishes_bind {E : Type -> Type} {R U : Type} (answer : forall X : Type, E X -> X)
  (t : itree E R) (k : R -> itree E U)
  (Q : nat -> list {X : Type & E X} -> U -> Prop) :
  finishes answer t
    (fun n1 tr1 x =>
       finishes answer (k x)
         (fun n2 tr2 r => Q (n1 + n2 - 1)%nat (tr1 ++ tr2)%list r)) ->
  finishes answer (ITree.bind t k) Q.
Proof.
  intros (n1 & tr1 & x & Ht & n2 & tr2 & r & Hk & HQ).
  exists (n1 + n2 - 1)%nat, (tr1 ++ tr2)%list, r. split; [| exact HQ].
  eapply run_bind; eassumption.
Qed.

(** What was shown of a run that ends within [bound] steps holds with
    any larger fuel. *)
Lemma finishes_run {E : Type -> Type} {R : Type} (answer : forall X : Type, E X -> X)
  (t : itree E R) (bound : nat) (P : list {X : Type & E X} * option R -> Prop) :
  finishes answer t (fun n trace r => (n <= bound)%nat /\ P (trace, Some r)) ->
  forall fuel, P (run answer (bound + fuel) t).
Proof.
  intros (n & trace & r & Hrun & Hn & HP) fuel.
  replace (bound + fuel)%nat with (n + (bound - n + fuel))%nat by lia.
  rewrite (run_mono answer _ _ _ _ _ Hrun). exact HP.
Qed.

Section LifecycleRuns.

Variable Context : Type.
Variable Handler : Type.
Variable Group : Type.
Variable CancelFunc : Type.

Local Abbreviation serveE := (serveE Context Handler Group CancelFunc).
Local Abbreviation taskE := (taskE Context Handler CancelFunc).
Local Abbreviation Serve := (Serve Context Handler Group CancelFunc).
Local Abbreviation serveTask := (serveTask Context Handler CancelFunc).
Local Abbreviation shutdownTask := (shutdownTask Context Handler CancelFunc).
Local Abbreviation NotifyContext := (NotifyContext Context Handler Group CancelFunc).
Local Abbreviation WithContext := (WithContext Context Handler Group CancelFunc).
Local Abbreviation Go := (Go Context Handler Group CancelFunc).
Local Abbreviation Wait := (Wait Context Handler Group CancelFunc).
Local Abbreviation Stop := (Stop Context Handler Group CancelFunc).
Local Abbreviation ListenAndServe := (ListenAndServe Context Handler CancelFunc).
Local Abbreviation Done := (Done Context Handler CancelFunc).
Local Abbreviation WithTimeout := (WithTimeout Context Handler CancelFunc).
Local Abbreviation Shutdown := (Shutdown Context Handler CancelFunc).
Local Abbreviation Cancel := (Cancel Context Handler CancelFunc).

(** X7.  When the composed configuration passes validation, [Serve] makes
    exactly six calls, in this order, whatever they answer: it installs
    the interception of SIGINT and SIGTERM on the caller's context, makes
    the error group on the context so obtained, launches the listener
    task, launches the shutdown watcher (on the group's context, with the
    caller's context and the validated configuration), waits for the
    group, and calls the [stop] of the interception.  It returns what the
    wait returned.  The server both tasks share has the address and the
    idle, read and write timeouts of the validated configuration, all
    three strictly positive, as is the shutdown timeout. *)
Theorem Serve_valid_run
  (answer : forall X : Type, serveE X -> X)
  (ctx : Context) (h : Handler) (opts : list ConfigOption) (fuel : nat) :
  snd (Validate (applyOptions opts zeroConfig)) = None ->
  let cfg := fst (Validate (applyOptions opts zeroConfig)) in
  let srv := http.mkServer (Addr cfg) h (IdleTimeout cfg) (ReadTimeout cfg)
                           (WriteTimeout cfg) in
  let sigCtx := fst (answer _ (NotifyContext ctx [SIGINT; SIGTERM])) in
  let stop := snd (answer _ (NotifyContext ctx [SIGINT; SIGTERM])) in
  let eg := fst (answer _ (WithContext sigCtx)) in
  let egCtx := snd (answer _ (WithContext sigCtx)) in
  run answer (7 + fuel) (Serve ctx h opts) =
    ([call (NotifyContext ctx [SIGINT; SIGTERM]);
      call (WithContext sigCtx);
      call (Go eg (serveTask srv));
      call (Go eg (shutdownTask egCtx ctx cfg srv));
      call (Wait eg);
      call (Stop stop)],
     Some (answer _ (Wait eg))) /\
  0 < http.IdleTimeout Handler srv /\
  0 < http.ReadTimeout Handler srv /\
  0 < http.WriteTimeout Handler srv /\
  0 < ShutdownTimeout cfg.
Proof.
  intros Hok cfg srv sigCtx stop eg egCtx.
  split.
  - subst cfg srv sigCtx stop eg egCtx. unfold Serve. cbv zeta.
    destruct (Validate (applyOptions opts zeroConfig)) as [cfg err].
    cbn in Hok. subst err. cbn [fst].
    cbn.
    destruct (answer _ (NotifyContext ctx [SIGINT; SIGTERM])) as [sigCtx stop].
    cbn.
    destruct (answer _ (WithContext sigCtx)) as [eg egCtx].
    cbn. reflexivity.
  - subst srv cfg. cbn.
    destruct (Validate_fields_positive (applyOptions opts zeroConfig))
      as (_ & Hi & Hr & Hw & Hs).
    auto.
Qed.


(** X9.  The shutdown watcher makes exactly four calls, in this order,
    whatever they answer: it waits for the group's context to be done,
    derives a context with the shutdown timeout of the configuration from
    the caller's context (not from the group's, which is done by then),
    shuts the server down with it, and calls the [cancel] of the derived
    context.  It returns what the shutdown returned. *)
Theorem shutdownTask_run
  (answer : forall X : Type, taskE X -> X)
  (egCtx ctx : Context) (cfg : Config) (srv : http.Server Handler) (fuel : nat) :
  let shutdownCtx := fst (answer _ (WithTimeout ctx (ShutdownTimeout cfg))) in
  let cancel := snd (answer _ (WithTimeout ctx (ShutdownTimeout cfg))) in
  run answer (5 + fuel) (shutdownTask egCtx ctx cfg srv) =
    ([call (Done egCtx);
      call (WithTimeout ctx (ShutdownTimeout cfg));
      call (Shutdown srv shutdownCtx);
      call (Cancel cancel)],
     Some (answer _ (Shutdown srv shutdownCtx))).
Proof.
  intros shutdownCtx cancel. subst shutdownCtx cancel.
  unfold shutdownTask. cbn.
  destruct (answer _ (WithTimeout ctx (ShutdownTimeout cfg))) as [shutdownCtx cancel].
  cbn. reflexivity.
Qed.

End LifecycleRuns.

Lemma Serve_valid_run_witness :
  snd (Validate (applyOptions [WithPort 9000] zeroConfig)) = None /\
  snd (run quietServe 7 (Serve unit unit unit unit tt tt [WithPort 9000])) = Some None.
Proof.
  split; [reflexivity |].
  destruct (Serve_valid_run unit unit unit unit quietServe tt tt [WithPort 9000] 0
              eq_refl) as [Hrun _].
  exact (f_equal snd Hrun).
Defined.

Example serveTask_wrapped_close :
  snd (run (closingTask (Some (wrapError "accept: http: Server closed"
                                         http.ErrServerClosed)))
           2 (serveTask unit unit unit (http.mkServer ":8080" tt 1 1 1))) =
  Some None.
Proof. reflexivity. Qed.

Example serveTask_other_error :
  snd (run (closingTask (Some (errorString "listen tcp :8080: bind: address already in use")))
           2 (serveTask unit unit unit (http.mkServer ":8080" tt 1 1 1))) =
  Some (Some (errorString "listen tcp :8080: bind: address already in use")).
Proof. reflexivity. Qed.

(** * Package pgxkit: error mapping and migration actions *)

Lemma mapCode_cases (p : pgxkit.PgError) :
  (pgxkit.mapCode p = Some pgxkit.ErrNotFound /\
   (pgxkit.Code p = pgxkit.NoData \/ pgxkit.Code p = pgxkit.NoDataFound)) \/
  (pgxkit.mapCode p = Some pgxkit.ErrAlreadyExists /\
   pgxkit.Code p = pgxkit.UniqueViolation) \/
  (pgxkit.mapCode p = Some (pgxkit.pgError p) /\
   pgxkit.Code p <> pgxkit.NoData /\
   pgxkit.Code p <> pgxkit.NoDataFound /\
   pgxkit.Code p <> pgxkit.UniqueViolation).
Proof.
  unfold pgxkit.mapCode.
  destruct (String.eqb_spec (pgxkit.Code p) pgxkit.NoData) as [H1 | H1];
    [left; cbn; auto |].
  destruct (String.eqb_spec (pgxkit.Code p) pgxkit.NoDataFound) as [H2 | H2];
    [left; cbn; auto |].
  destruct (String.eqb_spec (pgxkit.Code p) pgxkit.UniqueViolation) as [H3 | H3];
    cbn; right; [left | right]; auto.
Qed.

Lemma mapErr_cases (e : pgxkit.error) :
  (pgxkit.isErrNoRows e = true /\
   pgxkit.mapErr (Some e) = Some pgxkit.ErrNotFound) \/
  (pgxkit.isErrNoRows e = false /\
   exists p, pgxkit.asPgError e = Some p /\
             pgxkit.mapErr (Some e) = pgxkit.mapCode p) \/
  (pgxkit.isErrNoRows e = false /\ pgxkit.asPgError e = None /\
   pgxkit.mapErr (Some e) = Some e).
Proof.
  cbn [pgxkit.mapErr].
  destruct (pgxkit.isErrNoRows e); [left; auto | right].
  destruct (pgxkit.asPgError e) as [p |]; [left | right]; eauto.
Qed.

(** X10.  Mapping an error that [mapErr] has already mapped changes
    nothing. *)
Theorem mapErr_idempotent (err : option pgxkit.error) :
  pgxkit.mapErr (pgxkit.mapErr err) = pgxkit.mapErr err.
Proof.
  destruct err as [e |]; [| reflexivity].
  destruct (mapErr_cases e) as [[_ ->] | [(_ & p & _ & ->) | (Hrows & Hpg & ->)]].
  - reflexivity.
  - destruct (mapCode_cases p) as [[-> _] | [[-> _] | [Hp _]]]; try reflexivity.
    rewrite Hp. cbn. exact Hp.
  - cbn. rewrite Hrows, Hpg. reflexivity.
Qed.

(** X11.  [mapErr] returns nil only for nil.  What it returns otherwise
    never is [pgx.ErrNoRows] and never wraps it; and when a
    [*pgconn.PgError] can be found in it, the result is that error itself,
    with nothing wrapped around it, and its code is none of no_data,
    no_data_found and unique_violation: these three reach the caller only
    as [ErrNotFound] and [ErrAlreadyExists]. *)
Theorem mapErr_result (err : option pgxkit.error) :
  (pgxkit.mapErr err = None <-> err = None) /\
  (forall r, pgxkit.mapErr err = Some r ->
     pgxkit.isErrNoRows r = false /\
     (forall p, pgxkit.asPgError r = Some p ->
        r = pgxkit.pgError p /\
        pgxkit.Code p <> pgxkit.NoData /\
        pgxkit.Code p <> pgxkit.NoDataFound /\
        pgxkit.Code p <> pgxkit.UniqueViolation)).
Proof.
  destruct err as [e |]; cbn [pgxkit.mapErr].
  2: { split; [tauto | discriminate]. }
  destruct (pgxkit.isErrNoRows e) eqn:Hrows.
  { split; [split; discriminate |].
    intros r [= <-]. split; [reflexivity | discriminate]. }
  destruct (pgxkit.asPgError e) as [p |] eqn:Hpg.
  - destruct (mapCode_cases p) as [[-> _] | [[-> _] | [-> Hcodes]]].
    + split; [split; discriminate |].
      intros r [= <-]. split; [reflexivity | discriminate].
    + split; [split; discriminate |].
      intros r [= <-]. split; [reflexivity | discriminate].
    + split; [split; discriminate |].
      intros r [= <-]. split; [reflexivity |].
      intros q [= <-]. split; [reflexivity | exact Hcodes].
  - split; [split; discriminate |].
    intros r [= <-]. split; [exact Hrows |].
    intros q Hq. congruence.
Qed.

(** A row-less result wins over a server error found in the same chain,
    and the text wrapped around a server error is dropped. *)
Example mapErr_no_rows_first :
  pgxkit.mapErr
    (Some (pgxkit.wrapError "scan"
             (pgxkit.wrapError "query"
                (pgxkit.pgError (pgxkit.mkPgError "ERROR" "23505" "duplicate key"))))) =
    Some pgxkit.ErrAlreadyExists /\
  pgxkit.mapErr (Some (pgxkit.wrapError "scan" pgxkit.ErrNoRows)) =
    Some pgxkit.ErrNotFound /\
  pgxkit.mapErr
    (Some (pgxkit.wrapError "exec"
             (pgxkit.pgError (pgxkit.mkPgError "ERROR" "42P01" "relation does not exist")))) =
    Some (pgxkit.pgError (pgxkit.mkPgError "ERROR" "42P01" "relation does not exist")).
Proof. repeat split. Qed.

Section ParsingFacts.

Variable unicodeToLower : string -> string.

Local Abbreviation ToLower := (pgxkit.ToLower unicodeToLower).
Local Abbreviation ParseMigrateAction := (pgxkit.ParseMigrateAction unicodeToLower).
Local Abbreviation Set_ := (pgxkit.Set_ unicodeToLower).

Lemma ParseMigrateAction_cases (s : string) :
  (ToLower s = "up" /\ ParseMigrateAction s = (pgxkit.MigrateUp, None)) \/
  (ToLower s = "down" /\ ParseMigrateAction s = (pgxkit.MigrateDown, None)) \/
  (ToLower s <> "up" /\ ToLower s <> "down" /\
   ParseMigrateAction s =
     ("", Some (pgxkit.leafError ("invalid migrate action: " ++ s)))).
Proof.
  unfold pgxkit.ParseMigrateAction.
  destruct (String.eqb_spec (ToLower s) "up") as [Hup | Hup]; [left; auto |].
  destruct (String.eqb_spec (ToLower s) "down") as [Hdown | Hdown];
    right; [left | right]; auto.
Qed.

(** X12.  [ParseMigrateAction] returns either one of the two actions with
    a nil error, and then the action is the lower-cased input and parses
    to itself; or the empty action with an error whose text ends with the
    input exactly as it was given. *)
Theorem ParseMigrateAction_result (s : string) :
  (ParseMigrateAction s = (ToLower s, None) /\
   (ToLower s = pgxkit.MigrateUp \/ ToLower s = pgxkit.MigrateDown) /\
   ParseMigrateAction (fst (ParseMigrateAction s)) = ParseMigrateAction s) \/
  (ParseMigrateAction s =
     ("", Some (pgxkit.leafError ("invalid migrate action: " ++ s))) /\
   ToLower s <> pgxkit.MigrateUp /\ ToLower s <> pgxkit.MigrateDown).
Proof.
  destruct (ParseMigrateAction_cases s) as [[Hl Hp] | [[Hl Hp] | (Hu & Hd & Hp)]].
  - left. rewrite Hp, Hl. cbn. auto.
  - left. rewrite Hp, Hl. cbn. auto.
  - right. auto.
Qed.

Lemma lowerByte_inv (c l : ascii) :
  pgxkit.lowerByte c = l -> c = l \/ c = ascii_of_N (N_of_ascii l - 32).
Proof.
  unfold pgxkit.lowerByte.
  destruct ((65 <=? N_of_ascii c)%N && (N_of_ascii c <=? 90)%N) eqn:Hup;
    [| auto].
  apply andb_prop in Hup as [Hlo Hhi].
  apply N.leb_le in Hlo, Hhi.
  intros <-. right.
  rewrite N_ascii_embedding by lia.
  replace (N_of_ascii c + 32 - 32)%N with (N_of_ascii c) by lia.
  symmetry. apply ascii_N_embedding.
Qed.

Lemma lowerBytes_up (s : string) :
  pgxkit.lowerBytes s = "up" <-> In s ["up"; "Up"; "uP"; "UP"].
Proof.
  split.
  - destruct s as [| a [| b [| c rest]]]; cbn; try discriminate.
    intros [= Ha Hb].
    apply lowerByte_inv in Ha, Hb. cbn in Ha, Hb.
    destruct Ha as [-> | ->], Hb as [-> | ->]; auto.
  - intros [<- | [<- | [<- | [<- | []]]]]; reflexivity.
Qed.

Lemma lowerBytes_down (s : string) :
  pgxkit.lowerBytes s = "down" <->
  exists d o w n,
    s = String d (String o (String w (String n ""))) /\
    In d ["d"; "D"]%char /\ In o ["o"; "O"]%char /\
    In w ["w"; "W"]%char /\ In n ["n"; "N"]%char.
Proof.
  split.
  - destruct s as [| d [| o [| w [| n [| x rest]]]]]; cbn; try discriminate.
    intros [= Hd Ho Hw Hn].
    apply lowerByte_inv in Hd, Ho, Hw, Hn. cbn in Hd, Ho, Hw, Hn.
    exists d, o, w, n. split; [reflexivity |].
    destruct Hd as [-> | ->], Ho as [-> | ->], Hw as [-> | ->], Hn as [-> | ->];
      repeat split; cbn; auto.
  - intros (d & o & w & n & -> & Hd & Ho & Hw & Hn). cbn in Hd, Ho, Hw, Hn.
    destruct Hd as [<- | [<- | []]], Ho as [<- | [<- | []]],
      Hw as [<- | [<- | []]], Hn as [<- | [<- | []]]; reflexivity.
Qed.

(** X13.  Among the strings made of ASCII bytes, [ParseMigrateAction]
    answers [MigrateUp] for the four ways of capitalising "up" and for
    nothing else, and [MigrateDown] for the sixteen ways of capitalising
    "down" and for nothing else. *)
Theorem ParseMigrateAction_ascii_spellings (s : string) :
  pgxkit.isASCII s = true ->
  (ParseMigrateAction s = (pgxkit.MigrateUp, None) <->
   In s ["up"; "Up"; "uP"; "UP"]) /\
  (ParseMigrateAction s = (pgxkit.MigrateDown, None) <->
   exists d o w n,
     s = String d (String o (String w (String n ""))) /\
     In d ["d"; "D"]%char /\ In o ["o"; "O"]%char /\
     In w ["w"; "W"]%char /\ In n ["n"; "N"]%char).
Proof.
  intros Hascii.
  rewrite <- lowerBytes_up, <- lowerBytes_down.
  assert (Hl : ToLower s = pgxkit.lowerBytes s).
  { unfold pgxkit.ToLower. rewrite Hascii. reflexivity. }
  rewrite <- Hl.
  destruct (ParseMigrateAction_cases s) as [[Hup Hp] | [[Hdown Hp] | (Hu & Hd & Hp)]];
    rewrite Hp.
  - rewrite Hup. split; split; auto; discriminate.
  - rewrite Hdown. split; split; auto; discriminate.
  - split; split; intros H; try discriminate; contradiction.
Qed.

(** X14.  [Set] either fails, and then the flag is left exactly as it
    was and the error is that of [ParseMigrateAction]; or it succeeds,
    and then the flag is set, holds one of the two actions, which is the
    lower-cased input and what [String] prints, and setting the flag from
    what it prints changes nothing. *)
Theorem Set_result (f : pgxkit.MigrateActionFlag) (s : string) :
  (Set_ f s = (f, Some (pgxkit.leafError ("invalid migrate action: " ++ s))) /\
   ToLower s <> pgxkit.MigrateUp /\ ToLower s <> pgxkit.MigrateDown) \/
  (Set_ f s = (pgxkit.mkFlag true (ToLower s), None) /\
   (ToLower s = pgxkit.MigrateUp \/ ToLower s = pgxkit.MigrateDown) /\
   pgxkit.String_ (fst (Set_ f s)) = ToLower s /\
   Set_ (fst (Set_ f s)) (pgxkit.String_ (fst (Set_ f s))) = Set_ f s).
Proof.
  unfold pgxkit.Set_.
  destruct (ParseMigrateAction_cases s) as [[Hl Hp] | [[Hl Hp] | (Hu & Hd & Hp)]];
    rewrite Hp; cbn.
  - right. rewrite Hl. cbn. auto 6.
  - right. rewrite Hl. cbn. auto 6.
  - left. auto.
Qed.

End ParsingFacts.

Lemma ParseMigrateAction_ascii_spellings_witness :
  pgxkit.isASCII "dOwN" = true /\
  pgxkit.ParseMigrateAction (fun s => s) "dOwN" = (pgxkit.MigrateDown, None).
Proof.
  split; [reflexivity |].
  apply (ParseMigrateAction_ascii_spellings (fun s => s) "dOwN" eq_refl).
  exists "d"%char, "O"%char, "w"%char, "N"%char. repeat split; cbn; auto.
Defined.

(** * Package pgxkit: the client *)

(** One step of [run] through a bind whose left part has returned. *)
Ltac run_steps :=
  cbn;
  repeat (match goal with
          | |- context [observe (ITree.subst ?k (Ret ?x))] =>
              change (observe (ITree.subst k (Ret x))) with (observe (k x));
              cbv beta iota
          end; cbn).

(** Following a computation to its end, one call after the other, with
    a case analysis on every answer, logger and action met on the way. *)
Ltac finish_run answer :=
  repeat
    (cbv beta;
     lazymatch goal with
     | |- finishes _ (ITree.bind _ _) _ => apply finishes_bind
     | |- finishes _ (ITree.trigger _) _ => apply finishes_trigger
     | |- finishes _ (Ret _) _ => apply finishes_ret
     | |- finishes _ (match answer ?X ?e with _ => _ end) _ =>
         destruct (answer X e) eqn:?
     | |- finishes _ (match ?x with _ => _ end) _ => destruct x eqn:?
     | |- finishes _ (if ?b then _ else _) _ => destruct b eqn:?
     end);
  cbn; repeat split; eauto; try lia; try congruence.

Section ClientFacts.

Variable Context : Type.
Variable Logger : Type.
Variable FS : Type.
Variable Pool : Type.
Variable PoolConn : Type.
Variable Conn : Type.
Variable Migrator : Type.

Local Abbreviation client := (pgxkit.client Logger FS Pool).
Local Abbreviation clientE := (pgxkit.clientE Context Logger FS Pool PoolConn Conn Migrator).
Local Abbreviation NewClient := (pgxkit.NewClient Logger FS Pool).
Local Abbreviation build := (pgxkit.build Logger FS Pool).
Local Abbreviation lastLogger := (pgxkit.lastLogger Logger FS).
Local Abbreviation lastMigrations := (pgxkit.lastMigrations Logger FS).
Local Abbreviation client_Open :=
  (pgxkit.client_Open Context Logger FS Pool PoolConn Conn Migrator).
Local Abbreviation client_Migrate :=
  (pgxkit.client_Migrate Context Logger FS Pool PoolConn Conn Migrator).
Local Abbreviation Acquire := (pgxkit.Acquire Context Logger FS Pool PoolConn Conn Migrator).
Local Abbreviation Hijack := (pgxkit.Hijack Context Logger FS Pool PoolConn Conn Migrator).
Local Abbreviation ConnClose :=
  (pgxkit.ConnClose Context Logger FS Pool PoolConn Conn Migrator).
Local Abbreviation LogError := (pgxkit.LogError Context Logger FS Pool PoolConn Conn Migrator).
Local Abbreviation PoolNew := (pgxkit.PoolNew Context Logger FS Pool PoolConn Conn Migrator).
Local Abbreviation Ping := (pgxkit.Ping Context Logger FS Pool PoolConn Conn Migrator).
Local Abbreviation closesConn :=
  (pgxkit.closesConn Context Logger FS Pool PoolConn Conn Migrator).
Local Abbreviation runsMigration :=
  (pgxkit.runsMigration Context Logger FS Pool PoolConn Conn Migrator).
Local Abbreviation acquiresConn :=
  (pgxkit.acquiresConn Context Logger FS Pool PoolConn Conn Migrator).
Local Abbreviation afterClose :=
  (pgxkit.afterClose Context Logger FS Pool PoolConn Conn Migrator).

Lemma applyClientOptions_app (l1 l2 : list (pgxkit.ClientOptionFunc Logger FS Pool))
  (c : client) :
  pgxkit.applyClientOptions Logger FS Pool (l1 ++ l2)%list c =
  pgxkit.applyClientOptions Logger FS Pool l2
    (pgxkit.applyClientOptions Logger FS Pool l1 c).
Proof.
  revert c. induction l1 as [| o l1 IH]; intros c; [reflexivity |].
  cbn. apply IH.
Qed.

(** X15.  A client made by [NewClient] from options of the two exported
    constructors has the URL it was given, is not opened and has no pool,
    whatever the options; its logger is that of the last [WithLogger]
    (nil without one) and its migrations and action are those of the last
    [WithMigrations], with the action marked as set (unset without one). *)
Theorem NewClient_exported_options
  (u : string) (ds : list (pgxkit.exportedOption Logger FS)) :
  let c := NewClient u (map build ds) in
  pgxkit.url Logger FS Pool c = u /\
  pgxkit.opened Logger FS Pool c = false /\
  pgxkit.pool Logger FS Pool c = None /\
  pgxkit.log Logger FS Pool c = lastLogger ds /\
  match lastMigrations ds with
  | Some (fsys, act) =>
      pgxkit.migrations Logger FS Pool c = fsys /\
      pgxkit.migrateAction Logger FS Pool c = pgxkit.mkFlag true act
  | None =>
      pgxkit.migrations Logger FS Pool c = None /\
      pgxkit.migrateAction Logger FS Pool c = pgxkit.mkFlag false ""
  end.
Proof.
  cbv zeta. unfold pgxkit.NewClient, pgxkit.lastLogger, pgxkit.lastMigrations.
  induction ds as [| d ds IH] using rev_ind.
  - cbn. repeat split.
  - rewrite map_app, applyClientOptions_app, rev_app_distr. cbn [map rev app].
    destruct IH as (Hu & Ho & Hp & Hl & Hm).
    destruct d as [l | fsys act]; cbn; repeat split; auto.
Qed.




End ClientFacts.



(** A whole run of [Open] with a logger and migrations to apply, on a
    machine where everything succeeds. *)
Example Open_with_migrations_run :
  map (fun ev => pgxkit.closesConn unit unit unit unit unit unit unit ev)
      (fst (run (pgxkit.smoothClient None) 14
              (pgxkit.client_Open unit unit unit unit unit unit unit
                 (pgxkit.NewClient unit unit unit "postgres://db"
                    [pgxkit.WithLogger unit unit unit (Some tt);
                     pgxkit.WithMigrations unit unit unit (Some tt) pgxkit.MigrateUp])
                 tt))) =
  [false; false; false; false; false; false; false; false; false; false; false; true] /\
  snd (run (pgxkit.smoothClient None) 14
         (pgxkit.client_Open unit unit unit unit unit unit unit
            (pgxkit.NewClient unit unit unit "postgres://db"
               [pgxkit.WithLogger unit unit unit (Some tt);
                pgxkit.WithMigrations unit unit unit (Some tt) pgxkit.MigrateUp])
            tt)) =
  Some (pgxkit.mkClient unit unit unit (Some tt) "postgres://db" true (Some tt)
          (pgxkit.mkFlag true "up") (Some tt), None).
Proof. split; reflexivity. Qed.

(** * Further properties of option lists *)

Lemma applyOptions_flattenAll (l : list ConfigOption) (c : Config) :
  applyOptions l c = applyInOrder (flattenAll l) c.
Proof.
  rewrite <- applyToConfig_composite, applyToConfig_flatten, flatten_composite.
  reflexivity.
Qed.

Lemma flattenAll_leaves (l : list ConfigOption) :
  forallb isLeaf (flattenAll l) = true.
Proof.
  rewrite <- flatten_composite. apply flatten_leaves.
Qed.

Lemma applyInOrder_leaves_TLS (leaves : list ConfigOption) (c : Config) :
  forallb isLeaf leaves = true ->
  (TLS (applyInOrder leaves c), tlsErr (applyInOrder leaves c)) =
  match lastTLS leaves with
  | Some ve => ve
  | None => (TLS c, tlsErr c)
  end.
Proof.
  unfold lastTLS.
  induction leaves as [| o leaves IH] using rev_ind; intros Hleaves; [reflexivity |].
  rewrite forallb_app in Hleaves. apply andb_prop in Hleaves as [Hl Ho].
  cbn in Ho. rewrite andb_true_r in Ho.
  rewrite applyInOrder_app, rev_app_distr. cbn [rev app applyInOrder fold_left].
  specialize (IH Hl).
  destruct o as [v | v | v | v | v | v | v e | v | l]; try discriminate;
    cbn [find]; try exact IH.
  - reflexivity.
  - cbn [applyToConfig].
    destruct (Override_keeps_fields (applyInOrder leaves c) v) as [-> ->].
    exact IH.
Qed.

(** X19.  After any list of options, nested or not, the transport
    security of the configuration is that of the last transport-security
    option among the leaves of the list, taken whole: its context and its
    error replace both fields at once, so that a failed [WithTLS] coming
    after a successful one removes the context.  Without such an option
    both fields are what they were; no other option touches them. *)
Theorem transport_security_last_option_wins (opts : list ConfigOption) (c : Config) :
  (TLS (applyOptions opts c), tlsErr (applyOptions opts c)) =
  match lastTLS (flattenAll opts) with
  | Some (v, e) => (v, e)
  | None => (TLS c, tlsErr c)
  end.
Proof.
  rewrite applyOptions_flattenAll.
  rewrite (applyInOrder_leaves_TLS _ c (flattenAll_leaves opts)).
  destruct (lastTLS (flattenAll opts)) as [[v e] |]; reflexivity.
Qed.

Example failed_WithTLS_removes_context :
  TLS (applyOptions
         [WithTLS presentKeyPair presentFile acceptPEM "ca.pem" "cert.pem" "key.pem";
          WithConfigOptions
            [WithPort 8443;
             WithTLS missingKeyPair missingFile rejectPEM "ca.pem" "cert.pem" "key.pem"]]
         zeroConfig) = None.
Proof. reflexivity. Qed.

Lemma agreeUpToDefault_refl (dflt a : Z) : agreeUpToDefault dflt a a.
Proof. left. reflexivity. Qed.

Lemma agreeUpToDefault_patch (dflt a b p : Z) :
  agreeUpToDefault dflt a b ->
  agreeUpToDefault dflt (if p =? 0 then a else p) (if p =? 0 then b else p).
Proof.
  intros H. destruct (p =? 0); [exact H | left; reflexivity].
Qed.

Lemma agreeUpToDefault_filled (dflt a b : Z) :
  0 < dflt -> agreeUpToDefault dflt a b ->
  (if a <=? 0 then dflt else a) = (if b <=? 0 then dflt else b).
Proof.
  intros Hd [-> | [-> ->]]; [reflexivity |].
  apply Z.leb_gt in Hd. rewrite Hd. reflexivity.
Qed.

Lemma sameUpToDefaults_applyToConfig (o : ConfigOption) :
  forall c1 c0, sameUpToDefaults c1 c0 ->
                sameUpToDefaults (applyToConfig o c1) (applyToConfig o c0).
Proof.
  induction o as [o Hleaf | l IHl] using ConfigOption_nested_ind.
  - intros c1 c0 (Hh & Hp & Hi & Hr & Hw & Hs & Ht & He).
    destruct o as [v | v | v | v | v | v | v e | v | l]; try discriminate;
      cbn [applyToConfig]; rewrite ?Override_fields; unfold sameUpToDefaults;
      cbn [Host Port IdleTimeout ReadTimeout WriteTimeout ShutdownTimeout TLS tlsErr
           set_Host set_Port set_IdleTimeout set_ReadTimeout set_WriteTimeout
           set_ShutdownTimeout set_TLS];
      rewrite ?Hh, ?Ht, ?He;
      repeat split; auto using agreeUpToDefault_refl, agreeUpToDefault_patch.
  - intros c1 c0 H. rewrite !applyToConfig_composite.
    revert c1 c0 H. induction IHl as [| o l Ho _ IH]; intros c1 c0 H; [exact H |].
    cbn [applyOptions]. apply IH. apply Ho. exact H.
Qed.

Lemma sameUpToDefaults_setDefaultZeroValues (c1 c0 : Config) :
  sameUpToDefaults c1 c0 -> setDefaultZeroValues c1 = setDefaultZeroValues c0.
Proof.
  intros (Hh & Hp & Hi & Hr & Hw & Hs & Ht & He).
  assert (Hfill : forall c,
             setDefaultZeroValues c =
             mkConfig (Host c)
                      (if Port c <=? 0 then _defaultPort else Port c)
                      (if IdleTimeout c <=? 0 then _defaultIdleTimeout else IdleTimeout c)
                      (if ReadTimeout c <=? 0 then _defaultReadTimeout else ReadTimeout c)
                      (if WriteTimeout c <=? 0 then _defaultWriteTimeout else WriteTimeout c)
                      (if ShutdownTimeout c <=? 0
                       then _defaultShutdownTimeout else ShutdownTimeout c)
                      (TLS c) (tlsErr c)).
  { intros [h p i r w s t e]. unfold setDefaultZeroValues. cbn.
    destruct (p <=? 0); cbn; destruct (i <=? 0); cbn; destruct (r <=? 0); cbn;
      destruct (w <=? 0); cbn; destruct (s <=? 0); reflexivity. }
  rewrite !Hfill, Hh, Ht, He.
  f_equal; apply agreeUpToDefault_filled; auto; reflexivity.
Qed.

(** X20.  Starting from [DefaultConfig()] or from the zero configuration
    makes no difference once the configuration is validated: for every
    list of options, applied to the one and to the other, [Validate]
    leaves the same configuration and returns the same error. *)
Theorem DefaultConfig_start_is_redundant (opts : list ConfigOption) :
  Validate (applyOptions opts DefaultConfig) = Validate (applyOptions opts zeroConfig).
Proof.
  assert (H : sameUpToDefaults (applyOptions opts DefaultConfig)
                               (applyOptions opts zeroConfig)).
  { rewrite <- !applyToConfig_composite. apply sameUpToDefaults_applyToConfig.
    unfold sameUpToDefaults, agreeUpToDefault. cbn. repeat split; auto. }
  rewrite !Validate_unfold.
  rewrite (sameUpToDefaults_setDefaultZeroValues _ _ H).
  destruct H as (_ & _ & _ & _ & _ & _ & -> & ->). reflexivity.
Qed.
